(** * Server Architect: a shallow embedding of [main.py]

    The bot keeps one dialogue session per user in the process-wide
    dictionary [user_conversations], forwards every direct message to a
    text-generation service, and, once a reply carries a fenced JSON block,
    wipes the target guild and rebuilds it from the decoded plan.

    The embedding follows the source function by function:
    - Python strings are [string]s (UTF-8 bytes), with [str.split],
      substring test and [str.lower] written out;
    - the values produced by [json.loads] are the inductive [json], and the
      dynamic operations the code performs on them ([.get], [in], [[k]],
      truthiness, iteration, [.lower()]) return a [result], raising the
      exception Python raises;
    - [user_conversations] is a [gmap Z Session];
    - every awaited call on the outside world (Discord, the generation
      service) is an entry of a trace, and its outcome is chosen by an
      oracle that sees the whole history, so that each call may fail
      independently;
    - [try]/[except] is [try_except], a handler that may decline an
      exception, in which case it propagates. *)

From Stdlib Require Import ZArith String Ascii List Lia Bool.
From stdpp Require Import base option list gmap strings.

Local Set Warnings "-register-all".
Local Open Scope string_scope.
Local Open Scope list_scope.

(** ** Strings *)

Module Str.

(** [s.startswith(p)] *)
Fixpoint starts_with (p s : string) : bool :=
  match p, s with
  | EmptyString, _ => true
  | String a p', String b s' => if Ascii.eqb a b then starts_with p' s' else false
  | String _ _, EmptyString => false
  end.

(** [s[n:]] *)
Fixpoint drop (n : nat) (s : string) : string :=
  match n, s with
  | O, _ => s
  | S n', String _ s' => drop n' s'
  | S _, EmptyString => EmptyString
  end.

(** [sep in s] *)
Fixpoint contains (sep s : string) : bool :=
  if starts_with sep s then true
  else match s with
       | EmptyString => false
       | String _ s' => contains sep s'
       end.

(** [s.partition(sep)] without the separator: the text before the first
    occurrence of [sep] and the text after it, [None] when [sep] does not
    occur. *)
Fixpoint cut (sep s : string) : option (string * string) :=
  if starts_with sep s then Some (EmptyString, drop (String.length sep) s)
  else match s with
       | EmptyString => None
       | String c s' =>
           match cut sep s' with
           | Some (a, b) => Some (String c a, b)
           | None => None
           end
       end.

(** [s.split(sep)] for a non-empty [sep]: the pieces between successive
    non-overlapping occurrences, scanned from the left.  Every cut removes
    at least one character, so [S (length s)] rounds are enough. *)
Fixpoint split_rounds (n : nat) (sep s : string) : list string :=
  match n with
  | O => [s]
  | S n' =>
      match cut sep s with
      | None => [s]
      | Some (a, b) => a :: split_rounds n' sep b
      end
  end.

Definition split (sep s : string) : list string :=
  split_rounds (S (String.length s)) sep s.

(** [c.lower()] on one byte: only [A]..[Z] change.  Python lowers
    non-ASCII letters as well; no such letter lowers to a string of ASCII
    letters of [text] or [voice], so comparisons of a lowered string with
    these two words agree with Python's. *)
Definition lower_ascii (c : ascii) : ascii :=
  let n := nat_of_ascii c in
  if (65 <=? n)%nat && (n <=? 90)%nat then ascii_of_nat (n + 32) else c.

Fixpoint lower (s : string) : string :=
  match s with
  | EmptyString => EmptyString
  | String c s' => String (lower_ascii c) (lower s')
  end.

End Str.

(** ** Exceptions and results *)

(** The exception classes the program tells apart.  [Forbidden] is a
    subclass of [HTTPException]; every class here derives from [Exception],
    so [except Exception] catches all of them. *)
Inductive exn_class : Type :=
| Forbidden
| HTTPException
| JSONDecodeError
| IndexError
| AttributeError
| TypeError
| KeyError
| OtherException.

(** An exception object: its class, [str(e)], and [e.text] (only read on
    HTTP exceptions). *)
Record exn : Type := Exn {
  exn_cls : exn_class;
  exn_str : string;
  exn_text : string
}.

(** [isinstance(e, nextcord.errors.HTTPException)] *)
Definition is_HTTPException (e : exn) : bool :=
  match exn_cls e with
  | Forbidden | HTTPException => true
  | _ => false
  end.

(** [isinstance(e, nextcord.Forbidden)] *)
Definition is_Forbidden (e : exn) : bool :=
  match exn_cls e with
  | Forbidden => true
  | _ => false
  end.

Inductive result (A : Type) : Type :=
| Ok (a : A)
| Raise (e : exn).
Arguments Ok {A} a.
Arguments Raise {A} e.

Definition attribute_error : exn := Exn AttributeError "object has no attribute" "".
Definition type_error : exn := Exn TypeError "unsupported operand" "".
Definition key_error : exn := Exn KeyError "key" "".
Definition index_error : exn := Exn IndexError "list index out of range" "".

(** ** The values [json.loads] produces *)

(** A float is kept as its literal together with the one thing the program
    can observe of it, whether it is non-zero. *)
Inductive json : Type :=
| JNull
| JBool (b : bool)
| JInt (n : Z)
| JFloat (lit : string) (nonzero : bool)
| JString (s : string)
| JArray (xs : list json)
| JObject (kvs : list (string * json)).

Module Py.

(** Members of an object are listed in the order of the text; for a
    repeated key the last value wins, as in [json.loads]. *)
Fixpoint dict_get (k : string) (kvs : list (string * json)) : option json :=
  match kvs with
  | [] => None
  | (k', v) :: rest =>
      match dict_get k rest with
      | Some v' => Some v'
      | None => if String.eqb k k' then Some v else None
      end
  end.

(** Keys in first-insertion order, each once. *)
Fixpoint dict_keys (seen : list string) (kvs : list (string * json)) : list string :=
  match kvs with
  | [] => []
  | (k, _) :: rest =>
      if existsb (String.eqb k) seen then dict_keys seen rest
      else k :: dict_keys (k :: seen) rest
  end.

(** [v.get(k, default)] *)
Definition get (v : json) (k : string) (default : json) : result json :=
  match v with
  | JObject kvs =>
      match dict_get k kvs with
      | Some x => Ok x
      | None => Ok default
      end
  | _ => Raise attribute_error
  end.

(** [v == s] for a string literal [s] *)
Definition eq_str (v : json) (s : string) : bool :=
  match v with
  | JString s' => String.eqb s' s
  | _ => false
  end.

(** [k in v] for a string [k] *)
Definition contains (k : string) (v : json) : result bool :=
  match v with
  | JObject kvs => Ok (bool_decide (is_Some (dict_get k kvs)))
  | JArray xs => Ok (existsb (fun x => eq_str x k) xs)
  | JString s => Ok (Str.contains k s)
  | _ => Raise type_error
  end.

(** [v[k]] for a string [k] *)
Definition getitem (v : json) (k : string) : result json :=
  match v with
  | JObject kvs =>
      match dict_get k kvs with
      | Some x => Ok x
      | None => Raise key_error
      end
  | _ => Raise type_error
  end.

(** [bool(v)] *)
Definition truthy (v : json) : bool :=
  match v with
  | JNull => false
  | JBool b => b
  | JInt n => negb (n =? 0)%Z
  | JFloat _ nz => nz
  | JString s => negb (String.eqb s "")
  | JArray xs => match xs with [] => false | _ => true end
  | JObject kvs => match kvs with [] => false | _ => true end
  end.

Fixpoint chars (s : string) : list json :=
  match s with
  | EmptyString => []
  | String c s' => JString (String c EmptyString) :: chars s'
  end.

(** The items [for x in v] visits. *)
Definition iter (v : json) : result (list json) :=
  match v with
  | JArray xs => Ok xs
  | JString s => Ok (chars s)
  | JObject kvs => Ok (map JString (dict_keys [] kvs))
  | _ => Raise type_error
  end.

(** [v.lower()] *)
Definition lower (v : json) : result json :=
  match v with
  | JString s => Ok (JString (Str.lower s))
  | _ => Raise attribute_error
  end.

End Py.

(** ** The outside world *)

Inductive speaker : Type := system | user | assistant.

(** One entry of a session's message history, [{"role": r, "content": c}]. *)
Record Turn : Type := mkTurn { role : speaker; content : string }.

(** A value of [user_conversations]: [{"messages": [...], "guild_id": g}]. *)
Record Session : Type := mkSession { messages : list Turn; guild_id : Z }.

Record Channel : Type := mkChannel { channel_id : Z; channel_name : string }.

(** [role_is_default] and [role_is_integration] are the answers of
    [role.is_default()] and [role.is_integration()]. *)
Record Role : Type := mkRole {
  role_id : Z;
  role_name : string;
  role_is_default : bool;
  role_is_integration : bool
}.

(** The handle [bot.get_guild] returns, as the procedure sees it: the
    guild's name, the channels [fetch_channels] lists and the cached
    roles. *)
Record Guild : Type := mkGuild {
  guild_ident : Z;
  guild_name : string;
  guild_channels : list Channel;
  guild_roles : list Role
}.

(** The awaited calls.  [Typing] is the request made on entering
    [async with message.channel.typing()].  A category handle is the
    position of the [CreateCategory] call in the trace. *)
Inductive call : Type :=
| ChatCompletion (history : list Turn)
| Typing
| ChannelSend (text : string)
| UserSend (text : string)
| ResponseSend (text : string)
| CreateDM
| DMSend (text : string)
| FollowupSend (text : string)
| GuildEdit (name : json)
| FetchChannels
| ChannelDelete (ch : Channel)
| RoleDelete (r : Role)
| CreateRole (name : json)
| CreateCategory (name : json)
| CreateTextChannel (name : json) (category : nat)
| CreateVoiceChannel (name : json) (category : nat).

(** A call together with its outcome: [None] when it returned, [Some e]
    when it raised [e]. *)
Definition event : Type := call * option exn.

(** What the program does not control, and the text of the constant
    [SYSTEM_PROMPT] (some forty lines of prose).  [oracle] decides, from the calls
    made so far, whether the next call raises; [completion] is the reply
    text of a generation request that returns; [get_guild] is the bot's
    guild cache; [json_loads] is the library's decoder. *)
Record Env : Type := mkEnv {
  SYSTEM_PROMPT : string;
  oracle : list event -> call -> option exn;
  completion : list Turn -> string;
  get_guild : Z -> option Guild;
  json_loads : string -> result json
}.

(** The program's state: the session table and the calls made so far. *)
Record State : Type := mkState {
  user_conversations : gmap Z Session;
  trace : list event
}.

(** ** Computations that read and write the state and may raise *)

Definition M (A : Type) : Type := State -> result A * State.

Definition ret {A} (a : A) : M A := fun st => (Ok a, st).

Definition raise {A} (e : exn) : M A := fun st => (Raise e, st).

Definition bind {A B} (m : M A) (k : A -> M B) : M B :=
  fun st =>
    match m st with
    | (Ok a, st') => k a st'
    | (Raise e, st') => (Raise e, st')
    end.

Notation "x <- m ; k" := (bind m (fun x => k))
  (at level 20, m at level 100, k at level 200, only parsing).
Notation "m ;;; k" := (bind m (fun _ => k))
  (at level 100, k at level 200, only parsing, right associativity).

Definition lift {A} (r : result A) : M A := fun st => (r, st).

(** [try: m  except ...: handler].  The handler returns [None] for an
    exception no clause matches, which then propagates. *)
Definition try_except {A} (m : M A) (handler : exn -> option (M A)) : M A :=
  fun st =>
    match m st with
    | (Ok a, st') => (Ok a, st')
    | (Raise e, st') =>
        match handler e with
        | Some h => h st'
        | None => (Raise e, st')
        end
    end.

(** [for x in xs: body(x)] *)
Fixpoint for_each {A} (xs : list A) (body : A -> M unit) : M unit :=
  match xs with
  | [] => ret tt
  | x :: rest => body x ;;; for_each rest body
  end.

Section Calls.
Variable env : Env.

(** [await c]: the call is recorded with its outcome. *)
Definition perform (c : call) : M unit :=
  fun st =>
    match oracle env (trace st) c with
    | None =>
        (Ok tt, mkState (user_conversations st) (trace st ++ [(c, None)]))
    | Some e =>
        (Raise e, mkState (user_conversations st) (trace st ++ [(c, Some e)]))
    end.

(** [await guild.create_category(name=...)], returning the new handle. *)
Definition create_category (name : json) : M nat :=
  fun st => bind (perform (CreateCategory name)) (fun _ => ret (length (trace st))) st.

(** [await guild.fetch_channels()] *)
Definition fetch_channels (guild : Guild) : M (list Channel) :=
  perform FetchChannels ;;; ret (guild_channels guild).

(** [await client.chat.completions.create(...)] and the reply's text. *)
Definition chat_completion (history : list Turn) : M string :=
  perform (ChatCompletion history) ;;; ret (completion env history).

End Calls.

(** ** The session table *)

(** [user_conversations[uid]] *)
Definition session_of (uid : Z) : M Session :=
  fun st =>
    match user_conversations st !! uid with
    | Some s => (Ok s, st)
    | None => (Raise key_error, st)
    end.

(** [uid in user_conversations] *)
Definition has_session (uid : Z) : M bool :=
  fun st => (Ok (bool_decide (is_Some (user_conversations st !! uid))), st).

(** [user_conversations[uid] = s] *)
Definition set_session (uid : Z) (s : Session) : M unit :=
  fun st => (Ok tt, mkState (<[uid := s]> (user_conversations st)) (trace st)).

(** [user_conversations[uid]["messages"].append(t)] *)
Definition append_turn (uid : Z) (t : Turn) : M unit :=
  s <- session_of uid;
  set_session uid (mkSession (messages s ++ [t]) (guild_id s)).

(** [del user_conversations[uid]] *)
Definition del_session (uid : Z) : M unit :=
  fun st =>
    match user_conversations st !! uid with
    | Some _ => (Ok tt, mkState (delete uid (user_conversations st)) (trace st))
    | None => (Raise key_error, st)
    end.

(** ** [create_server_from_json] *)

Definition nl : string := String (ascii_of_nat 10) EmptyString.

Definition success_message (guild : Guild) : string :=
  "✅ Your server, '" ++ guild_name guild ++ "', has been reconfigured successfully!".

Definition api_error_notice (text : string) : string :=
  "I'm sorry, but I ran into an error while configuring the server. Discord said: '"
  ++ text ++ "'. Please check my permissions and try again.".

Definition critical_notice : string :=
  "I'm sorry, a critical and unexpected error occurred. I was unable to configure your server.".

(** The condition [k in v and v[k]]. *)
Definition present_and_truthy (k : string) (v : json) : result bool :=
  match Py.contains k v with
  | Raise e => Raise e
  | Ok false => Ok false
  | Ok true =>
      match Py.getitem v k with
      | Raise e => Raise e
      | Ok x => Ok (Py.truthy x)
      end
  end.

Section Reconfigure.
Variable env : Env.
Variable guild : Guild.

(** Body of [for role in guild.roles]. *)
Definition wipe_role (r : Role) : M unit :=
  if role_is_default r || role_is_integration r then ret tt
  else
    try_except (perform env (RoleDelete r))
      (fun e => if is_Forbidden e then Some (ret tt) else None).

(** Body of [for role_info in data["roles"]]. *)
Definition create_role_entry (role_info : json) : M unit :=
  role_name <- lift (Py.get role_info "name" JNull);
  if Py.truthy role_name && negb (Py.eq_str role_name "@everyone") then
    try_except (perform env (CreateRole role_name)) (fun _ => Some (ret tt))
  else ret tt.

(** Body of [for channel_info in category_info["channels"]]. *)
Definition create_channel_entry (new_category : nat) (channel_info : json) : M unit :=
  channel_name <- lift (Py.get channel_info "name" JNull);
  kind <- lift (Py.get channel_info "type" (JString "text"));
  channel_type <- lift (Py.lower kind);
  if negb (Py.truthy channel_name) then ret tt
  else
    try_except
      (if Py.eq_str channel_type "text" then
         perform env (CreateTextChannel channel_name new_category)
       else if Py.eq_str channel_type "voice" then
         perform env (CreateVoiceChannel channel_name new_category)
       else ret tt)
      (fun _ => Some (ret tt)).

(** Body of [for category_info in data["categories"]]. *)
Definition create_category_entry (category_info : json) : M unit :=
  category_name <- lift (Py.get category_info "name" JNull);
  if negb (Py.truthy category_name) then ret tt
  else
    try_except
      (new_category <- create_category env category_name;
       has_channels <- lift (present_and_truthy "channels" category_info);
       if has_channels then
         channels <- lift (Py.getitem category_info "channels");
         items <- lift (Py.iter channels);
         for_each items (create_channel_entry new_category)
       else ret tt)
      (fun _ => Some (ret tt)).

(** The body of the outer [try]. *)
Definition reconfigure (data : json) : M unit :=
  server_name <- lift (Py.get data "server_name" (JString (guild_name guild)));
  perform env (GuildEdit server_name) ;;;
  (channels <- fetch_channels env guild;
   for_each channels (fun channel => perform env (ChannelDelete channel))) ;;;
  for_each (guild_roles guild) wipe_role ;;;
  (has_roles <- lift (present_and_truthy "roles" data);
   if has_roles then
     roles <- lift (Py.getitem data "roles");
     items <- lift (Py.iter roles);
     for_each items create_role_entry
   else ret tt) ;;;
  (has_categories <- lift (present_and_truthy "categories" data);
   if has_categories then
     categories <- lift (Py.getitem data "categories");
     items <- lift (Py.iter categories);
     for_each items create_category_entry
   else ret tt) ;;;
  perform env (UserSend (success_message guild)).

Definition create_server_from_json (data : json) : M unit :=
  try_except (reconfigure data)
    (fun e =>
       if is_HTTPException e then
         Some (perform env (UserSend (api_error_notice (exn_text e))))
       else Some (perform env (UserSend critical_notice))).

End Reconfigure.

(** ** [handle_json_and_create_server] *)

Definition fence_marker : string := "```json".
Definition open_fence : string := "```json" ++ nl.
Definition close_fence : string := nl ++ "```".

(** [xs[i]] *)
Definition index {A} (xs : list A) (i : nat) : result A :=
  match xs !! i with
  | Some x => Ok x
  | None => Raise index_error
  end.

(** [ai_response.split("```json\n")[1].split("\n```")[0]] *)
Definition extract_json_string (ai_response : string) : result string :=
  match index (Str.split open_fence ai_response) 1 with
  | Raise e => Raise e
  | Ok rest => index (Str.split close_fence rest) 0
  end.

Definition not_visible_notice : string :=
  "I can no longer see the server we were working on. Please make sure that I am in the server you want to re-build.".

Definition rebuilding_notice (guild : Guild) : string :=
  "Great! I have the final configuration. Please wait while I re-build the '"
  ++ guild_name guild ++ "' server. This might take a moment...".

Definition bad_json_notice : string :=
  "There was an error in the JSON structure I generated. Could you please review our conversation and try summarizing the details again?".

Definition bad_fence_notice : string :=
  "I seem to have formatted my final response incorrectly. Let's try that again. Can you confirm the details one last time?".

Definition unexpected_notice (e : exn) : string :=
  "An unexpected error occurred during server creation: " ++ exn_str e.

(** The three [except] clauses of [handle_json_and_create_server]. *)
Definition extraction_handlers (env : Env) (e : exn) : option (M unit) :=
  match exn_cls e with
  | JSONDecodeError => Some (perform env (ChannelSend bad_json_notice))
  | IndexError => Some (perform env (ChannelSend bad_fence_notice))
  | _ => Some (perform env (ChannelSend (unexpected_notice e)))
  end.

Definition handle_json_and_create_server
    (env : Env) (ai_response : string) (guild_id : Z) : M unit :=
  match get_guild env guild_id with
  | None => perform env (ChannelSend not_visible_notice)
  | Some guild =>
      perform env (ChannelSend (rebuilding_notice guild)) ;;;
      try_except
        (json_string <- lift (extract_json_string ai_response);
         server_data <- lift (json_loads env json_string);
         create_server_from_json env guild server_data)
        (extraction_handlers env)
  end.

(** ** [on_message] *)

(** Handlers run one at a time, each to its end, as the per-user
    sequencing of events has it.

    An incoming message: [author_is_bot] is [message.author == bot.user],
    [in_dm] is [isinstance(message.channel, nextcord.DMChannel)]. *)
Record Message : Type := mkMessage {
  author_id : Z;
  author_is_bot : bool;
  in_dm : bool;
  message_content : string
}.

Definition apology : string :=
  "Sorry, I'm having a little trouble connecting to my brain right now. Please try again in a moment.".

(** The body of the [try] of [on_message]. *)
Definition exchange (env : Env) (user_id : Z) : M unit :=
  s <- session_of user_id;
  ai_response_text <- chat_completion env (messages s);
  append_turn user_id (mkTurn assistant ai_response_text) ;;;
  if Str.contains fence_marker ai_response_text then
    s' <- session_of user_id;
    handle_json_and_create_server env ai_response_text (guild_id s') ;;;
    del_session user_id
  else perform env (ChannelSend ai_response_text).

(** The body of its [except Exception]. *)
Definition apologize (env : Env) (user_id : Z) : M unit :=
  perform env (ChannelSend apology) ;;;
  still <- has_session user_id;
  if still then del_session user_id else ret tt.

Definition on_message (env : Env) (message : Message) : M unit :=
  if author_is_bot message || negb (in_dm message) then ret tt
  else
    let user_id := author_id message in
    let user_message := message_content message in
    known <- has_session user_id;
    if known then
      perform env Typing ;;;
      append_turn user_id (mkTurn user user_message) ;;;
      try_except (exchange env user_id) (fun _ => Some (apologize env user_id))
    else ret tt.

(** ** [start_command] *)

(** A [/start] invocation: who invoked it, whether they administer the
    guild, and the guild it was invoked in. *)
Record Interaction : Type := mkInteraction {
  interaction_user_id : Z;
  interaction_is_administrator : bool;
  interaction_guild_id : Z;
  interaction_guild_name : string
}.

Definition not_admin_notice : string :=
  "Sorry, you must be a server administrator to use this command.".

Definition already_started_notice : string :=
  "You already have a server configuration process in progress in your DMs!".

Definition started_notice (name : string) : string :=
  "I've sent you a DM to get started on re-configuring the '" ++ name ++ "' server!".

Definition greeting : string :=
  "Greetings! I am the Server Architect and am ready to help you create your dream server. Please tell me what you are looking to make and we will go from there.".

Definition dm_forbidden_notice : string :=
  "I couldn't send you a DM. Please enable your Direct Messages for this server to continue.".

Definition start_failed_notice : string :=
  "An unexpected error occurred while trying to start our conversation.".

Definition start_command (env : Env) (interaction : Interaction) : M unit :=
  let user_id := interaction_user_id interaction in
  if negb (interaction_is_administrator interaction) then
    perform env (ResponseSend not_admin_notice)
  else
    known <- has_session user_id;
    if known then perform env (ResponseSend already_started_notice)
    else
      set_session user_id
        (mkSession [mkTurn system (SYSTEM_PROMPT env)] (interaction_guild_id interaction)) ;;;
      perform env (ResponseSend (started_notice (interaction_guild_name interaction))) ;;;
      try_except
        (perform env CreateDM ;;; perform env (DMSend greeting))
        (fun e =>
           let notice := if is_Forbidden e then dm_forbidden_notice else start_failed_notice in
           Some (perform env (FollowupSend notice) ;;;
                 still <- has_session user_id;
                 if still then del_session user_id else ret tt)).

(** Running a handler: the outcome and the final state. *)
Definition run {A} (m : M A) (st : State) : result A * State := m st.

Definition initial (convs : gmap Z Session) : State := mkState convs [].

(** ** A decoder to run the program on concrete replies

    [json_loads] is a field of [Env], and the theorems hold for every
    decoder.  The examples need one to run: [Json.loads] decodes JSON
    without fractions, exponents and [\u] escapes, and reports everything
    else as a [JSONDecodeError]. *)

Module Json.

Definition decode_error : exn := Exn JSONDecodeError "Expecting value" "".

Definition is_ws (c : ascii) : bool :=
  let n := nat_of_ascii c in
  (n =? 32)%nat || (n =? 9)%nat || (n =? 10)%nat || (n =? 13)%nat.

Fixpoint skip_ws (s : string) : string :=
  match s with
  | String c s' => if is_ws c then skip_ws s' else s
  | EmptyString => s
  end.

Definition unescape (c : ascii) : option ascii :=
  match c with
  | "034"%char => Some "034"%char
  | "\"%char => Some "\"%char
  | "/"%char => Some "/"%char
  | "n"%char => Some (ascii_of_nat 10)
  | "t"%char => Some (ascii_of_nat 9)
  | "r"%char => Some (ascii_of_nat 13)
  | "b"%char => Some (ascii_of_nat 8)
  | "f"%char => Some (ascii_of_nat 12)
  | _ => None
  end.

(** The rest of a string literal, after its opening quote. *)
Fixpoint string_body (s : string) : option (string * string) :=
  match s with
  | EmptyString => None
  | String c s' =>
      if Ascii.eqb c "034"%char then Some (EmptyString, s')
      else if Ascii.eqb c "\"%char then
        match s' with
        | String d s'' =>
            match unescape d, string_body s'' with
            | Some x, Some (body, rest) => Some (String x body, rest)
            | _, _ => None
            end
        | EmptyString => None
        end
      else if (nat_of_ascii c <? 32)%nat then None
      else
        match string_body s' with
        | Some (body, rest) => Some (String c body, rest)
        | None => None
        end
  end.

Definition digit (c : ascii) : option Z :=
  let n := nat_of_ascii c in
  if (48 <=? n)%nat && (n <=? 57)%nat then Some (Z.of_nat (n - 48)) else None.

Fixpoint digits (acc : Z) (s : string) : Z * string :=
  match s with
  | String c s' =>
      match digit c with
      | Some d => digits (10 * acc + d) s'
      | None => (acc, s)
      end
  | EmptyString => (acc, s)
  end.

(** An integer literal: no leading zero, no fraction, no exponent. *)
Definition natural (s : string) : option (Z * string) :=
  match s with
  | String c s' =>
      match digit c with
      | Some d =>
          let '(n, rest) := if (d =? 0)%Z then (0%Z, s') else digits d s' in
          match rest with
          | String x _ =>
              if Ascii.eqb x "."%char || Ascii.eqb x "e"%char || Ascii.eqb x "E"%char
                 || bool_decide (is_Some (digit x))
              then None else Some (n, rest)
          | EmptyString => Some (n, rest)
          end
      | None => None
      end
  | EmptyString => None
  end.

Definition keyword (w : string) (v : json) (s : string) : option (json * string) :=
  if Str.starts_with w s then Some (v, Str.drop (String.length w) s) else None.

(** [value n s] decodes one value at the head of [s]; [items] and
    [members] decode what follows an opening bracket or brace.  [n] bounds
    the number of steps; every step consumes a character. *)
Fixpoint value (n : nat) (s : string) : option (json * string) :=
  match n with
  | O => None
  | S n' =>
      match skip_ws s with
      | String "{" r =>
          match skip_ws r with
          | String "}" r' => Some (JObject [], r')
          | _ => members n' [] r
          end
      | String "[" r =>
          match skip_ws r with
          | String "]" r' => Some (JArray [], r')
          | _ => items n' [] r
          end
      | String "034"%char r =>
          match string_body r with
          | Some (str, r') => Some (JString str, r')
          | None => None
          end
      | String "-" r =>
          match natural r with
          | Some (z, r') => Some (JInt (- z), r')
          | None => None
          end
      | String "t" _ as w => keyword "true" (JBool true) w
      | String "f" _ as w => keyword "false" (JBool false) w
      | String "n" _ as w => keyword "null" JNull w
      | w =>
          match natural w with
          | Some (z, r') => Some (JInt z, r')
          | None => None
          end
      end
  end
with items (n : nat) (acc : list json) (s : string) : option (json * string) :=
  match n with
  | O => None
  | S n' =>
      match value n' s with
      | Some (v, r) =>
          match skip_ws r with
          | String "," r' => items n' (acc ++ [v]) r'
          | String "]" r' => Some (JArray (acc ++ [v]), r')
          | _ => None
          end
      | None => None
      end
  end
with members (n : nat) (acc : list (string * json)) (s : string) : option (json * string) :=
  match n with
  | O => None
  | S n' =>
      match skip_ws s with
      | String "034"%char r =>
          match string_body r with
          | Some (k, r1) =>
              match skip_ws r1 with
              | String ":" r2 =>
                  match value n' r2 with
                  | Some (v, r3) =>
                      match skip_ws r3 with
                      | String "," r4 => members n' (acc ++ [(k, v)]) r4
                      | String "}" r4 => Some (JObject (acc ++ [(k, v)]), r4)
                      | _ => None
                      end
                  | None => None
                  end
              | _ => None
              end
          | None => None
          end
      | _ => None
      end
  end.

Definition loads (s : string) : result json :=
  match value (S (S (String.length s))) s with
  | Some (v, rest) =>
      match skip_ws rest with
      | EmptyString => Ok v
      | _ => Raise decode_error
      end
  | None => Raise decode_error
  end.

End Json.

(** ** A sample world *)

Module Sample.

Definition quote : string := String (ascii_of_nat 34) EmptyString.

(** Every call returns. *)
Definition quiet : list event -> call -> option exn := fun _ _ => None.

(** The calls selected by [hit] raise [e], the others return. *)
Definition failing (hit : call -> bool) (e : exn) : list event -> call -> option exn :=
  fun _ c => if hit c then Some e else None.

Definition missing_permissions : exn :=
  Exn Forbidden "403 Forbidden (error code: 50013): Missing Permissions" "Missing Permissions".

Definition timed_out : exn := Exn OtherException "Request timed out." "".

Definition everyone : Role := mkRole 7 "@everyone" true false.
Definition bot_role : Role := mkRole 8 "Server Architect" false true.
Definition mods : Role := mkRole 9 "Mods" false false.
Definition general : Channel := mkChannel 1 "general".
Definition lounge : Channel := mkChannel 2 "lounge".

Definition guild : Guild :=
  mkGuild 7 "Old" [general; lounge] [everyone; bot_role; mods].

(** A world whose generation service answers [reply], whose only guild is
    [guild], and whose calls fail as [orc] says. *)
Definition world (reply : string) (orc : list event -> call -> option exn) : Env :=
  mkEnv "You are the Server Architect" orc (fun _ => reply)
    (fun g => if (g =? 7)%Z then Some guild else None) Json.loads.

(** The same world after the bot has left the guild. *)
Definition world_without_guild (reply : string) : Env :=
  mkEnv "You are the Server Architect" quiet (fun _ => reply) (fun _ => None) Json.loads.

Definition session : Session :=
  mkSession [mkTurn system "You are the Server Architect"] 7.

Definition sessions : gmap Z Session := {[ 42%Z := session ]}.

Definition message : Message := mkMessage 42 false true "That is all, go ahead.".

Definition history : list Turn := messages session ++ [mkTurn user (message_content message)].

Definition interaction : Interaction := mkInteraction 42 true 7 "Old".

Definition fenced (payload : string) : string :=
  (open_fence ++ payload ++ close_fence)%string.

(** [{"server_name": "X"] followed by a newline and the closing fence:
    the object is never closed. *)
Definition unclosed_object : string :=
  ("{" ++ quote ++ "server_name" ++ quote ++ ": " ++ quote ++ "X" ++ quote)%string.

(** [{"server_name": "Nova"}] *)
Definition nova : json := JObject [("server_name", JString "Nova")].

(** A plan with one category whose three channels have the kinds
    [TEXT], [forum] and [Voice]. *)
Definition plan_with_forum : json :=
  JObject
    [("categories",
      JArray
        [JObject
           [("name", JString "Main");
            ("channels",
             JArray
               [JObject [("name", JString "general"); ("type", JString "TEXT")];
                JObject [("name", JString "ideas"); ("type", JString "forum")];
                JObject [("name", JString "talk"); ("type", JString "Voice")]])]])].

Definition is_rename (c : call) : bool :=
  match c with GuildEdit _ => true | _ => false end.

Definition is_delete_of (id : Z) (c : call) : bool :=
  match c with ChannelDelete ch => (channel_id ch =? id)%Z | _ => false end.

Definition is_completion (c : call) : bool :=
  match c with ChatCompletion _ => true | _ => false end.

End Sample.

(** ** Vocabulary of the statements *)

(** The piece before the first separator, the whole text when there is
    none. *)
Definition before (sep s : string) : string :=
  match Str.cut sep s with
  | Some (a, _) => a
  | None => s
  end.

(** The result of a call, from the oracle's answer. *)
Definition outcome (o : option exn) : result unit :=
  match o with
  | None => Ok tt
  | Some e => Raise e
  end.

(** The calls that change the guild. *)
Definition mutates (c : call) : bool :=
  match c with
  | GuildEdit _ | ChannelDelete _ | RoleDelete _ | CreateRole _
  | CreateCategory _ | CreateTextChannel _ _ | CreateVoiceChannel _ _ => true
  | _ => false
  end.

Definition is_object (v : json) : bool :=
  match v with
  | JObject _ => true
  | _ => false
  end.

(** The two ways a reply that carries the marker can fail to yield a plan,
    each with the notice the user gets: the chained [split] finds no
    opening delimiter, or the decoder rejects the extracted text. *)
Inductive malformed (env : Env) (reply : string) : string -> Prop :=
| fence_not_found :
    extract_json_string reply = Raise index_error ->
    malformed env reply bad_fence_notice
| payload_not_json (text : string) (e : exn) :
    extract_json_string reply = Ok text ->
    json_loads env text = Raise e ->
    exn_cls e = JSONDecodeError ->
    malformed env reply bad_json_notice.

(** The notice [create_server_from_json] sends for an exception that
    reaches its outer handlers. *)
Definition failure_notice (e : exn) : string :=
  if is_HTTPException e then api_error_notice (exn_text e) else critical_notice.

(** In the spec's words: the text strictly between the opening delimiter
    and the first closing fence after it. *)
Definition between_fences (reply : string) : option string :=
  match Str.cut open_fence reply with
  | None => None
  | Some (_, rest) =>
      match Str.cut close_fence rest with
      | None => None
      | Some (payload, _) => Some payload
      end
  end.

(** The trace after a rename and the deletion of the channels [done], all
    of which returned. *)
Definition wiped (tr : list event) (name : json) (done : list Channel) : list event :=
  tr ++ (GuildEdit name, None) :: (FetchChannels, None)
     :: map (fun c => (ChannelDelete c, None)) done.

(** What the role wipe may do: a [RoleDelete] is for a role of the guild
    that is neither the default role nor managed by an integration. *)
Definition respects_roles (guild : Guild) (ev : event) : Prop :=
  match fst ev with
  | RoleDelete r =>
      In r (guild_roles guild) /\ role_is_default r = false /\ role_is_integration r = false
  | _ => True
  end.

(** [m] only adds events, each of which satisfies [P]. *)
Definition adds (P : event -> Prop) {A} (m : M A) : Prop :=
  forall st, exists evs, trace (snd (m st)) = trace st ++ evs /\ Forall P evs.

(** [c.upper()] on one byte, and the spellings of a lower-case word in
    every letter case. *)
Definition upper_ascii (c : ascii) : ascii :=
  let n := nat_of_ascii c in
  if (97 <=? n)%nat && (n <=? 122)%nat then ascii_of_nat (n - 32) else c.

Fixpoint letter_cases (w : string) : list string :=
  match w with
  | EmptyString => [EmptyString]
  | String c w' =>
      flat_map (fun v => [String c v; String (upper_ascii c) v]) (letter_cases w')
  end.

(** [m] leaves the session table alone. *)
Definition keeps_sessions {A} (m : M A) : Prop :=
  forall st, user_conversations (snd (m st)) = user_conversations st.

(** The call [c] was made, with whatever outcome. *)
Definition attempted (c : call) (tr : list event) : Prop :=
  exists o, In (c, o) tr.

(** ** Vocabulary for the session table *)

(** [s'] is [s0] with turns appended, for the same guild. *)
Definition extends (s0 s' : Session) : Prop :=
  guild_id s' = guild_id s0 /\ exists added, messages s' = messages s0 ++ added.

(** From [convs] to [convs'] only the entry of [uid] changed, and it was
    extended or deleted, not created or rewritten. *)
Definition touches_only (uid : Z) (convs convs' : gmap Z Session) : Prop :=
  (forall u, u <> uid -> convs' !! u = convs !! u) /\
  (forall s', convs' !! uid = Some s' ->
              exists s0, convs !! uid = Some s0 /\ extends s0 s').

Definition grows_for (uid : Z) {A} (m : M A) : Prop :=
  forall st, touches_only uid (user_conversations st) (user_conversations (snd (m st))).

(** Every history in the table starts with the instruction turn. *)
Definition opens_with_prompt (env : Env) (convs : gmap Z Session) : Prop :=
  forall uid s, convs !! uid = Some s ->
                exists rest, messages s = mkTurn system (SYSTEM_PROMPT env) :: rest.

(** The session [start_command] creates. *)
Definition fresh_session (env : Env) (interaction : Interaction) : Session :=
  mkSession [mkTurn system (SYSTEM_PROMPT env)] (interaction_guild_id interaction).

Module Sample2.

Definition is_channel_send (c : call) : bool :=
  match c with ChannelSend _ => true | _ => false end.

Definition is_typing (c : call) : bool :=
  match c with Typing => true | _ => false end.

Definition is_create_text (c : call) : bool :=
  match c with CreateTextChannel _ _ => true | _ => false end.

Definition is_followup (c : call) : bool :=
  match c with FollowupSend _ => true | _ => false end.

Definition is_dm_send (c : call) : bool :=
  match c with DMSend _ => true | _ => false end.

Definition is_create_dm (c : call) : bool :=
  match c with CreateDM => true | _ => false end.

Definition is_role_delete (c : call) : bool :=
  match c with RoleDelete _ => true | _ => false end.

Definition is_create_role_named (n : string) (c : call) : bool :=
  match c with CreateRole (JString s) => String.eqb s n | _ => false end.

Definition is_create_category (c : call) : bool :=
  match c with CreateCategory _ => true | _ => false end.

Definition is_user_send (c : call) : bool :=
  match c with UserSend _ => true | _ => false end.

(** The generation service and the direct-message channel are both down. *)
Definition all_down : list event -> call -> option exn :=
  Sample.failing (fun c => Sample.is_completion c || is_channel_send c) Sample.timed_out.

Definition server_error : exn :=
  Exn HTTPException "500 Internal Server Error (error code: 0)" "Internal Server Error".

(** A user without a session. *)
Definition newcomer : Interaction := mkInteraction 43 true 7 "Old".

Definition stranger : Message := mkMessage 43 false true "hello?".

Definition crew : Role := mkRole 10 "Crew" false false.

(** The sample guild with one more deletable role. *)
Definition guild : Guild :=
  mkGuild 7 "Old" [Sample.general; Sample.lounge]
    [Sample.everyone; Sample.mods; Sample.bot_role; crew].

(** Three role entries: [Admin], the reserved name, [Member]. *)
Definition role_entries : list json :=
  [JObject [("name", JString "Admin")]; JObject [("name", JString "@everyone")];
   JObject [("name", JString "Member")]].

(** Three channel entries of one category, the second with a kind that is
    no string. *)
Definition channel_entries_done : list json :=
  [JObject [("name", JString "general"); ("type", JString "TEXT")]].

Definition channel_entry_bad : json :=
  JObject [("name", JString "ideas"); ("type", JNull)].

Definition channel_entries_rest : list json :=
  [JObject [("name", JString "talk"); ("type", JString "voice")]].

(** Three dispatchable channel entries, of the kinds [TEXT], [forum] and
    [Voice]. *)
Definition channel_entries_three : list json :=
  [JObject [("name", JString "general"); ("type", JString "TEXT")];
   JObject [("name", JString "ideas"); ("type", JString "forum")];
   JObject [("name", JString "talk"); ("type", JString "Voice")]].

Definition category_with_bad_channel : list (string * json) :=
  [("name", JString "Main");
   ("channels", JArray (channel_entries_done ++ channel_entry_bad :: channel_entries_rest))].

End Sample2.

(** ** Vocabulary for the reconfiguration *)

(** The calls made, without their outcomes. *)
Definition calls (evs : list event) : list call := map fst evs.

Definition is_delete (c : call) : bool :=
  match c with
  | ChannelDelete _ | RoleDelete _ => true
  | _ => false
  end.

Definition is_create (c : call) : bool :=
  match c with
  | CreateRole _ | CreateCategory _ | CreateTextChannel _ _ | CreateVoiceChannel _ _ => true
  | _ => false
  end.

(** [m] adds events of [P], then events of [Q]. *)
Definition adds_then (P Q : event -> Prop) {A} (m : M A) : Prop :=
  forall st, exists a b,
    trace (snd (m st)) = trace st ++ a ++ b /\ Forall P a /\ Forall Q b.

(** The roles the wipe tries to delete. *)
Definition deletable (r : Role) : bool :=
  negb (role_is_default r || role_is_integration r).

(** The name [create_role_entry] makes a role for, if any. *)
Definition wanted_role (role_info : json) : option json :=
  match role_info with
  | JObject kvs =>
      match Py.dict_get "name" kvs with
      | Some n => if Py.truthy n && negb (Py.eq_str n "@everyone") then Some n else None
      | None => None
      end
  | _ => None
  end.

Definition role_calls (items : list json) : list call :=
  omap (fun x => CreateRole <$> wanted_role x) items.

(** A channel entry the loop can dispatch: an object whose kind, if
    present, is a string. *)
Definition dispatchable (channel_info : json) : bool :=
  match channel_info with
  | JObject kvs =>
      match Py.dict_get "type" kvs with
      | Some (JString _) | None => true
      | Some _ => false
      end
  | _ => false
  end.

(** The call [create_channel_entry] makes for a dispatchable entry, if
    any. *)
Definition channel_call (cat : nat) (channel_info : json) : option call :=
  match channel_info with
  | JObject kvs =>
      match Py.dict_get "name" kvs with
      | Some n =>
          if Py.truthy n then
            match Py.dict_get "type" kvs with
            | None => Some (CreateTextChannel n cat)
            | Some (JString k) =>
                if String.eqb (Str.lower k) "text" then Some (CreateTextChannel n cat)
                else if String.eqb (Str.lower k) "voice" then Some (CreateVoiceChannel n cat)
                else None
            | Some _ => None
            end
          else None
      | None => None
      end
  | _ => None
  end.

(** ** Plans in the wire format *)

(** A plan as the instruction text describes it: an optional server name,
    role names, and categories of channels, each channel with an optional
    kind. *)
Record ChannelSpec : Type := mkChannelSpec { spec_name : string; spec_kind : option string }.

Record CategorySpec : Type := mkCategorySpec {
  category_name : string;
  category_channels : list ChannelSpec
}.

Record Plan : Type := mkPlan {
  plan_name : option string;
  plan_roles : list string;
  plan_categories : list CategorySpec
}.

(** The JSON value of a plan. *)
Definition encode_channel (c : ChannelSpec) : json :=
  JObject (("name", JString (spec_name c))
             :: match spec_kind c with
                | Some k => [("type", JString k)]
                | None => []
                end).

Definition encode_category (c : CategorySpec) : json :=
  JObject [("name", JString (category_name c));
           ("channels", JArray (map encode_channel (category_channels c)))].

Definition encode_role (n : string) : json := JObject [("name", JString n)].

Definition encode_plan (p : Plan) : json :=
  JObject (match plan_name p with
           | Some n => [("server_name", JString n)]
           | None => []
           end
           ++ [("roles", JArray (map encode_role (plan_roles p)));
               ("categories", JArray (map encode_category (plan_categories p)))]).

(** The calls a plan asks for. *)
Definition named (n : string) : bool :=
  negb (String.eqb n "") && negb (String.eqb n "@everyone").

Definition channel_spec_call (cat : nat) (c : ChannelSpec) : option call :=
  if String.eqb (spec_name c) "" then None
  else match spec_kind c with
       | None => Some (CreateTextChannel (JString (spec_name c)) cat)
       | Some k =>
           if String.eqb (Str.lower k) "text"
           then Some (CreateTextChannel (JString (spec_name c)) cat)
           else if String.eqb (Str.lower k) "voice"
           then Some (CreateVoiceChannel (JString (spec_name c)) cat)
           else None
       end.

(** The calls for one category when the call number [pos] is the next: the
    category is made by call [pos], which is its handle. *)
Definition category_spec_calls (pos : nat) (c : CategorySpec) : list call :=
  if String.eqb (category_name c) "" then []
  else CreateCategory (JString (category_name c))
         :: omap (channel_spec_call pos) (category_channels c).

Fixpoint categories_calls (pos : nat) (cs : list CategorySpec) : list call :=
  match cs with
  | [] => []
  | c :: rest =>
      category_spec_calls pos c
        ++ categories_calls (pos + length (category_spec_calls pos c)) rest
  end.

(** Rename, wipe, roles: the calls before the categories. *)
Definition plan_calls_before (guild : Guild) (p : Plan) : list call :=
  [GuildEdit (JString (default (guild_name guild) (plan_name p))); FetchChannels]
    ++ map ChannelDelete (guild_channels guild)
    ++ map RoleDelete (List.filter deletable (guild_roles guild))
    ++ map (fun n => CreateRole (JString n)) (List.filter named (plan_roles p)).

(** All the calls of a run that starts as call number [start]. *)
Definition plan_calls (guild : Guild) (p : Plan) (start : nat) : list call :=
  plan_calls_before guild p
    ++ categories_calls (start + length (plan_calls_before guild p)) (plan_categories p)
    ++ [UserSend (success_message guild)].

Definition nonempty {A} (xs : list A) : bool :=
  match xs with
  | [] => false
  | _ => true
  end.

(** Calls that all returned. *)
Definition returned (cs : list call) : list event := map (fun c => (c, @None exn)) cs.

Module Sample3.

(** Scenario A: a server called Nova, roles Admin and Member, a category
    Main with the text channel general, and a voice category. *)
Definition nova : Plan :=
  mkPlan (Some "Nova") ["Admin"; "Member"]
    [mkCategorySpec "Main" [mkChannelSpec "general" (Some "text")];
     mkCategorySpec "Voice Chats" [mkChannelSpec "Lobby" (Some "Voice");
                                   mkChannelSpec "Stage" (Some "stage")]].

(** [{"server_name": "Nova"}] as text. *)
Definition nova_text : string :=
  ("{" ++ Sample.quote ++ "server_name" ++ Sample.quote ++ ": "
       ++ Sample.quote ++ "Nova" ++ Sample.quote ++ "}")%string.

Definition prelude : string := "Here is the plan: ".

(** What follows the block holds a second block. *)
Definition postlude : string :=
  (" An empty one would be " ++ open_fence ++ "{}" ++ close_fence)%string.

Definition two_blocks : string :=
  (prelude ++ open_fence ++ nova_text ++ close_fence ++ postlude)%string.

End Sample3.

(** ** Vocabulary for the extraction *)

(** What [handle_json_and_create_server] does with the text it has
    extracted: the text is decoded and the value applied, under the three
    handlers. *)
Definition decode_and_apply (env : Env) (guild : Guild) (text : string) : M unit :=
  try_except
    (server_data <- lift (json_loads env text);
     create_server_from_json env guild server_data)
    (extraction_handlers env).

(** The next opening delimiter of [rest], if there is one, starts at
    offset [n] or later. *)
Definition opens_from (n : nat) (rest : string) : bool :=
  match Str.cut open_fence rest with
  | Some (a, _) => (n <=? String.length a)%nat
  | None => true
  end.

(** * Properties *)

(** ** Strings *)

Section StringFacts.

Lemma append_nil (r : string) : "" +:+ r = r.
Proof. reflexivity. Qed.

Lemma append_cons (x : ascii) (a r : string) :
  String x a +:+ r = String x (a +:+ r).
Proof. reflexivity. Qed.

Lemma append_assoc (a b c : string) : (a +:+ b) +:+ c = a +:+ (b +:+ c).
Proof.
  induction a as [|x a IH]; [reflexivity|].
  now rewrite !append_cons, IH.
Qed.

Lemma length_append (a b : string) :
  String.length (a +:+ b) = (String.length a + String.length b)%nat.
Proof.
  induction a as [|x a IH]; [reflexivity|].
  rewrite append_cons. cbn [String.length]. now rewrite IH.
Qed.

Lemma starts_with_append (p r : string) : Str.starts_with p (p +:+ r) = true.
Proof.
  induction p as [|x p IH]; [reflexivity|].
  rewrite append_cons. cbn [Str.starts_with]. now rewrite Ascii.eqb_refl.
Qed.

Lemma drop_append (p r : string) : Str.drop (String.length p) (p +:+ r) = r.
Proof.
  induction p as [|x p IH]; [now destruct r|].
  rewrite append_cons. exact IH.
Qed.

(** Whether [p] starts a text is decided by the first [length p]
    characters. *)
Lemma starts_with_long (p x y : string) :
  (String.length p <= String.length x)%nat ->
  Str.starts_with p (x +:+ y) = Str.starts_with p x.
Proof.
  revert x; induction p as [|a p IH]; intros x Hlen; [now destruct x|].
  destruct x as [|b x]; cbn [String.length] in Hlen; [lia|].
  rewrite append_cons. cbn [Str.starts_with].
  destruct (Ascii.eqb a b); [apply IH; lia | reflexivity].
Qed.

Lemma contains_false_inv (sep : string) (c : ascii) (s : string) :
  Str.contains sep (String c s) = false ->
  Str.starts_with sep (String c s) = false /\ Str.contains sep s = false.
Proof.
  cbn [Str.contains].
  destruct (Str.starts_with sep (String c s)); [discriminate | now intros].
Qed.

Lemma cut_absent (sep s : string) :
  Str.contains sep s = false -> Str.cut sep s = None.
Proof.
  induction s as [|c s IH]; intros H.
  - destruct sep; [discriminate | reflexivity].
  - destruct (contains_false_inv _ _ _ H) as [H1 H2].
    cbn [Str.cut]. rewrite H1, (IH H2). reflexivity.
Qed.

Lemma cut_here (sep r : string) :
  Str.cut sep (sep +:+ r) = Some ("", r).
Proof.
  assert (Hs := starts_with_append sep r).
  assert (Hd := drop_append sep r).
  destruct (sep +:+ r) as [|x t]; cbn [Str.cut]; now rewrite Hs, Hd.
Qed.

(** The first occurrence of the separator [a +:+ l] in
    [p +:+ (a +:+ l) +:+ r] is the displayed one as soon as none starts
    inside [p]. *)
Lemma cut_first (a : string) (l : ascii) (p r : string) :
  Str.contains (a +:+ String l "") (p +:+ a) = false ->
  Str.cut (a +:+ String l "") (p +:+ (a +:+ String l "") +:+ r) = Some (p, r).
Proof.
  set (sep := a +:+ String l "").
  induction p as [|c p IH]; intros H.
  - rewrite append_nil. apply cut_here.
  - rewrite append_cons in H.
    destruct (contains_false_inv _ _ _ H) as [H1 H2].
    rewrite append_cons. cbn [Str.cut].
    assert (E : String c (p +:+ sep +:+ r)
                = String c (p +:+ a) +:+ (String l "" +:+ r)).
    { rewrite append_cons. f_equal. unfold sep.
      now rewrite !append_assoc. }
    rewrite E at 1.
    rewrite starts_with_long, H1.
    + now rewrite (IH H2).
    + unfold sep. rewrite length_append. cbn [String.length].
      rewrite length_append. lia.
Qed.

Lemma starts_with_drop_length (p s : string) :
  Str.starts_with p s = true ->
  (String.length p + String.length (Str.drop (String.length p) s))%nat = String.length s.
Proof.
  revert s. induction p as [|a p IH]; intros s H; [reflexivity|].
  destruct s as [|b s]; cbn [Str.starts_with] in H; [discriminate|].
  destruct (Ascii.eqb a b); [|discriminate].
  cbn [String.length Str.drop]. specialize (IH s H). lia.
Qed.

(** A cut removes the separator and keeps everything else. *)
Lemma cut_length (sep s a b : string) :
  Str.cut sep s = Some (a, b) ->
  (String.length a + String.length sep + String.length b)%nat = String.length s.
Proof.
  revert a. induction s as [|c s IH]; intros a H.
  - cbn [Str.cut] in H. destruct (Str.starts_with sep "") eqn:E; [|discriminate].
    injection H as <- <-. apply (starts_with_drop_length _ _ E).
  - cbn [Str.cut] in H. destruct (Str.starts_with sep (String c s)) eqn:E.
    + injection H as <- <-. apply (starts_with_drop_length _ _ E).
    + destruct (Str.cut sep s) as [[a' b']|]; [|discriminate].
      injection H as <- <-. specialize (IH a' eq_refl).
      cbn [String.length]. lia.
Qed.

(** More rounds than the text has characters change nothing: [split]
    never stops for lack of rounds. *)
Lemma split_rounds_enough (n m : nat) (sep s : string) :
  (0 < String.length sep)%nat ->
  (String.length s < n)%nat -> (String.length s < m)%nat ->
  Str.split_rounds n sep s = Str.split_rounds m sep s.
Proof.
  intros Hsep. revert m s. induction n as [|n IH]; intros m s Hn Hm; [lia|].
  destruct m as [|m]; [lia|]. cbn [Str.split_rounds].
  destruct (Str.cut sep s) as [[a b]|] eqn:E; [|reflexivity].
  apply cut_length in E. f_equal. apply IH; lia.
Qed.

Lemma split_first (sep s : string) :
  Str.split sep s !! 0 = Some (before sep s).
Proof.
  unfold Str.split, before. cbn [Str.split_rounds].
  destruct (Str.cut sep s) as [[a b]|]; reflexivity.
Qed.

Lemma split_second (c : ascii) (sep s a b : string) :
  Str.cut (String c sep) s = Some (a, b) ->
  Str.split (String c sep) s !! 1 = Some (before (String c sep) b).
Proof.
  intros H. unfold Str.split, before. cbn [Str.split_rounds]. rewrite H.
  destruct s as [|x s]; [discriminate|].
  cbn [String.length Str.split_rounds].
  destruct (Str.cut (String c sep) b) as [[a' b']|]; reflexivity.
Qed.

Lemma split_no_second (sep s : string) :
  Str.cut sep s = None -> Str.split sep s !! 1 = None.
Proof.
  intros H. unfold Str.split. cbn [Str.split_rounds]. now rewrite H.
Qed.

End StringFacts.

(** What the chained [split] of [extract_json_string] computes: the text
    after the first opening delimiter, cut at the next opening delimiter if
    there is one, then cut at the first closing fence if there is one. *)
Lemma extract_json_string_cut (ai_response : string) :
  extract_json_string ai_response =
  match Str.cut open_fence ai_response with
  | None => Raise index_error
  | Some (_, rest) => Ok (before close_fence (before open_fence rest))
  end.
Proof.
  unfold extract_json_string, index.
  destruct (Str.cut open_fence ai_response) as [[a b]|] eqn:E.
  - change open_fence with (String "`" ("``json" +:+ nl)) in E |- *.
    rewrite (split_second _ _ _ _ _ E), split_first. reflexivity.
  - now rewrite (split_no_second _ _ E).
Qed.

(** ** Running the computations *)

Section Execution.
Variable env : Env.

(** A call always leaves its entry in the trace, with the outcome the
    oracle chose. *)
Lemma perform_eq (c : call) (convs : gmap Z Session) (tr : list event) :
  perform env c (mkState convs tr) =
  (outcome (oracle env tr c), mkState convs (tr ++ [(c, oracle env tr c)])).
Proof. unfold perform. cbn. now destruct (oracle env tr c). Qed.

Lemma has_session_eq (uid : Z) (convs : gmap Z Session) (tr : list event) :
  has_session uid (mkState convs tr) =
  (Ok (bool_decide (is_Some (convs !! uid))), mkState convs tr).
Proof. reflexivity. Qed.

Lemma session_of_eq (uid : Z) (s : Session) (convs : gmap Z Session) (tr : list event) :
  convs !! uid = Some s ->
  session_of uid (mkState convs tr) = (Ok s, mkState convs tr).
Proof. intros H. unfold session_of. cbn. now rewrite H. Qed.

Lemma append_turn_eq (uid : Z) (t : Turn) (s : Session)
    (convs : gmap Z Session) (tr : list event) :
  convs !! uid = Some s ->
  append_turn uid t (mkState convs tr) =
  (Ok tt, mkState (<[uid := mkSession (messages s ++ [t]) (guild_id s)]> convs) tr).
Proof.
  intros H. unfold append_turn, bind. now rewrite (session_of_eq _ _ _ _ H).
Qed.

Lemma del_session_eq (uid : Z) (s : Session) (convs : gmap Z Session) (tr : list event) :
  convs !! uid = Some s ->
  del_session uid (mkState convs tr) = (Ok tt, mkState (delete uid convs) tr).
Proof. intros H. unfold del_session. cbn. now rewrite H. Qed.

(** [on_message] for a direct message of a user with an open session:
    the user's turn is appended, then the exchange runs under the
    handler. *)
Lemma on_message_open (message : Message) (s : Session)
    (convs : gmap Z Session) (tr : list event) :
  author_is_bot message = false ->
  in_dm message = true ->
  convs !! author_id message = Some s ->
  oracle env tr Typing = None ->
  on_message env message (mkState convs tr) =
  try_except (exchange env (author_id message))
    (fun _ => Some (apologize env (author_id message)))
    (mkState
       (<[author_id message :=
            mkSession (messages s ++ [mkTurn user (message_content message)]) (guild_id s)]>
          convs) (tr ++ [(Typing, None)])).
Proof.
  intros Hbot Hdm Hs Hty. unfold on_message. rewrite Hbot, Hdm. cbn [orb negb].
  unfold bind at 1. rewrite has_session_eq, Hs.
  rewrite bool_decide_eq_true_2 by eauto.
  unfold bind at 1. rewrite perform_eq, Hty. cbn [outcome].
  unfold bind at 1. now rewrite (append_turn_eq _ _ _ _ _ Hs).
Qed.

(** The handler: the apology is sent and, when it went out, the session
    is deleted. *)
Lemma apologize_eq (uid : Z) (s : Session) (convs : gmap Z Session) (tr : list event) :
  convs !! uid = Some s ->
  oracle env tr (ChannelSend apology) = None ->
  apologize env uid (mkState convs tr) =
  (Ok tt, mkState (delete uid convs) (tr ++ [(ChannelSend apology, None)])).
Proof.
  intros Hs Hsend. unfold apologize, bind.
  rewrite perform_eq, Hsend. cbn [outcome].
  rewrite has_session_eq, Hs, bool_decide_eq_true_2 by eauto.
  now rewrite (del_session_eq _ _ _ _ Hs).
Qed.

End Execution.

(** C7, as the code has it.  When the request to the generation service
    raises, whatever the exception, the apology is sent to the user.  If
    that message goes out, the handler returns with no session left for
    the user; if sending it raises, the deletion is not reached: the
    session stays, with the user's turn in it, and the exception leaves
    the handler. *)
Theorem generation_failure_ends_session
    (env : Env) (message : Message) (s : Session)
    (convs : gmap Z Session) (tr : list event) (e : exn) :
  let uid := author_id message in
  let history := messages s ++ [mkTurn user (message_content message)] in
  let tr1 := (tr ++ [(Typing, None)]) ++ [(ChatCompletion history, Some e)] in
  let o := oracle env tr1 (ChannelSend apology) in
  author_is_bot message = false ->
  in_dm message = true ->
  convs !! uid = Some s ->
  oracle env tr Typing = None ->
  oracle env (tr ++ [(Typing, None)]) (ChatCompletion history) = Some e ->
  exists st',
    run (on_message env message) (mkState convs tr) = (outcome o, st') /\
    trace st' = tr1 ++ [(ChannelSend apology, o)] /\
    user_conversations st' !! uid =
      match o with
      | None => None
      | Some _ => Some (mkSession history (guild_id s))
      end.
Proof.
  intros uid history tr1 o Hbot Hdm Hs Hty Hfail. unfold run.
  rewrite (on_message_open env message s convs tr Hbot Hdm Hs Hty).
  fold uid. fold history.
  set (convs1 := <[uid := mkSession history (guild_id s)]> convs).
  assert (H1 : convs1 !! uid = Some (mkSession history (guild_id s)))
    by apply lookup_insert_eq.
  unfold try_except, exchange, bind.
  rewrite (session_of_eq _ _ _ _ H1). cbn [messages].
  unfold chat_completion, bind. rewrite perform_eq, Hfail. cbn [outcome].
  fold tr1. unfold apologize, bind. rewrite perform_eq. fold o.
  destruct o as [e'|]; cbn [outcome].
  - eexists. split; [reflexivity|]. cbn. auto.
  - rewrite has_session_eq, H1, bool_decide_eq_true_2 by eauto.
    rewrite (del_session_eq _ _ _ _ H1).
    eexists. split; [reflexivity|]. cbn. split; [reflexivity | apply lookup_delete_eq].
Qed.

Section Terminal.
Variable env : Env.

(** After a reply that carries the marker, the assistant's turn is
    appended, the reply is handed over, and the session is deleted. *)
Lemma exchange_terminal (uid : Z) (s : Session)
    (convs : gmap Z Session) (tr : list event) :
  let reply := completion env (messages s) in
  let s' := mkSession (messages s ++ [mkTurn assistant reply]) (guild_id s) in
  convs !! uid = Some s ->
  oracle env tr (ChatCompletion (messages s)) = None ->
  Str.contains fence_marker reply = true ->
  exchange env uid (mkState convs tr) =
  (handle_json_and_create_server env reply (guild_id s) ;;; del_session uid)
    (mkState (<[uid := s']> convs) (tr ++ [(ChatCompletion (messages s), None)])).
Proof.
  intros reply s' Hs Hchat Hmark. unfold exchange.
  unfold bind at 1. rewrite (session_of_eq _ _ _ _ Hs).
  unfold bind at 1. unfold chat_completion, bind at 1.
  rewrite perform_eq, Hchat. cbn [outcome ret].
  unfold bind at 1. rewrite (append_turn_eq _ _ _ _ _ Hs).
  fold reply. rewrite Hmark.
  unfold bind at 1. erewrite session_of_eq by apply lookup_insert_eq.
  reflexivity.
Qed.

(** After a reply without the marker it is sent on as it is. *)
Lemma exchange_conversational (uid : Z) (s : Session)
    (convs : gmap Z Session) (tr : list event) :
  let reply := completion env (messages s) in
  let s' := mkSession (messages s ++ [mkTurn assistant reply]) (guild_id s) in
  convs !! uid = Some s ->
  oracle env tr (ChatCompletion (messages s)) = None ->
  Str.contains fence_marker reply = false ->
  exchange env uid (mkState convs tr) =
  perform env (ChannelSend reply)
    (mkState (<[uid := s']> convs) (tr ++ [(ChatCompletion (messages s), None)])).
Proof.
  intros reply s' Hs Hchat Hmark. unfold exchange.
  unfold bind at 1. rewrite (session_of_eq _ _ _ _ Hs).
  unfold bind at 1. unfold chat_completion, bind at 1.
  rewrite perform_eq, Hchat. cbn [outcome ret].
  unfold bind at 1. rewrite (append_turn_eq _ _ _ _ _ Hs).
  fold reply. now rewrite Hmark.
Qed.

Lemma handle_unreachable (reply : string) (gid : Z) (st : State) :
  get_guild env gid = None ->
  handle_json_and_create_server env reply gid st =
  perform env (ChannelSend not_visible_notice) st.
Proof. intros H. unfold handle_json_and_create_server. now rewrite H. Qed.

(** A malformed payload: the matching notice is sent and the handler
    returns normally. *)
Lemma handle_malformed (reply notice : string) (gid : Z) (guild : Guild)
    (convs : gmap Z Session) (tr : list event) :
  let tr1 := tr ++ [(ChannelSend (rebuilding_notice guild), None)] in
  get_guild env gid = Some guild ->
  oracle env tr (ChannelSend (rebuilding_notice guild)) = None ->
  malformed env reply notice ->
  handle_json_and_create_server env reply gid (mkState convs tr) =
  perform env (ChannelSend notice) (mkState convs tr1).
Proof.
  intros tr1 Hg Hsend Hbad. unfold handle_json_and_create_server.
  rewrite Hg. unfold bind at 1. rewrite perform_eq, Hsend. cbn [outcome].
  unfold try_except, extraction_handlers, bind, lift.
  destruct Hbad as [Hx | text e Hx Hj Hc].
  - rewrite Hx. reflexivity.
  - rewrite Hx, Hj, Hc. reflexivity.
Qed.

End Terminal.

(** C1.  What the code does with a malformed terminal payload: the user is
    sent the notice of the sub-case, and then the session is deleted all
    the same, so that no session is left for another attempt. *)
Theorem malformed_payload_ends_session
    (env : Env) (message : Message) (s : Session) (guild : Guild)
    (convs : gmap Z Session) (tr : list event) (notice : string) :
  let uid := author_id message in
  let history := messages s ++ [mkTurn user (message_content message)] in
  let reply := completion env history in
  let tr0 := tr ++ [(Typing, None)] in
  let tr1 := tr0 ++ [(ChatCompletion history, None)] in
  let tr2 := tr1 ++ [(ChannelSend (rebuilding_notice guild), None)] in
  author_is_bot message = false ->
  in_dm message = true ->
  convs !! uid = Some s ->
  oracle env tr Typing = None ->
  oracle env tr0 (ChatCompletion history) = None ->
  Str.contains fence_marker reply = true ->
  get_guild env (guild_id s) = Some guild ->
  oracle env tr1 (ChannelSend (rebuilding_notice guild)) = None ->
  malformed env reply notice ->
  oracle env tr2 (ChannelSend notice) = None ->
  exists st',
    run (on_message env message) (mkState convs tr) = (Ok tt, st') /\
    user_conversations st' !! uid = None /\
    trace st' = tr2 ++ [(ChannelSend notice, None)].
Proof.
  intros uid history reply tr0 tr1 tr2 Hbot Hdm Hs Hty Hchat Hmark Hg Hreb Hbad Hsend.
  unfold run. rewrite (on_message_open env message s convs tr Hbot Hdm Hs Hty).
  fold uid. fold history. fold tr0.
  set (s1 := mkSession history (guild_id s)).
  assert (H1 : <[uid := s1]> convs !! uid = Some s1) by apply lookup_insert_eq.
  unfold try_except.
  rewrite (exchange_terminal env uid s1 _ tr0 H1 Hchat Hmark).
  cbn [messages guild_id s1]. fold reply. fold tr1.
  unfold bind at 1.
  rewrite (handle_malformed env reply notice _ guild _ tr1 Hg Hreb Hbad).
  rewrite perform_eq. fold tr2. rewrite Hsend. cbn [outcome].
  erewrite del_session_eq by apply lookup_insert_eq.
  eexists. split; [reflexivity|]. cbn. split; [apply lookup_delete_eq | reflexivity].
Qed.

(** C8.  When the guild of the session can no longer be resolved, the only
    call made is the notice to the user: nothing of the guild is touched. *)
Theorem unreachable_target_aborts
    (env : Env) (reply : string) (gid : Z)
    (convs : gmap Z Session) (tr : list event) :
  get_guild env gid = None ->
  let o := oracle env tr (ChannelSend not_visible_notice) in
  run (handle_json_and_create_server env reply gid) (mkState convs tr) =
    (outcome o, mkState convs (tr ++ [(ChannelSend not_visible_notice, o)])) /\
  mutates (ChannelSend not_visible_notice) = false.
Proof.
  intros H o. unfold run. rewrite (handle_unreachable env reply gid _ H).
  now rewrite perform_eq.
Qed.

(** A decoded value that is not an object fails at the first [.get]; the
    [AttributeError] is no HTTP exception, so the last handler answers. *)
Lemma create_server_from_non_object (env : Env) (guild : Guild) (data : json) (st : State) :
  is_object data = false ->
  create_server_from_json env guild data st = perform env (UserSend critical_notice) st.
Proof.
  intros H. unfold create_server_from_json, try_except, reconfigure, bind, lift.
  destruct data; try discriminate; reflexivity.
Qed.

(** C10.  A fenced payload that decodes to something other than an object
    is extracted and handed to [create_server_from_json] as it is; the
    user gets the critical-error notice and neither malformed-payload
    notice. *)
Theorem non_object_payload_reaches_apply
    (env : Env) (reply payload : string) (data : json) (gid : Z) (guild : Guild)
    (convs : gmap Z Session) (tr : list event) :
  let tr1 := tr ++ [(ChannelSend (rebuilding_notice guild), None)] in
  get_guild env gid = Some guild ->
  oracle env tr (ChannelSend (rebuilding_notice guild)) = None ->
  extract_json_string reply = Ok payload ->
  json_loads env payload = Ok data ->
  is_object data = false ->
  oracle env tr1 (UserSend critical_notice) = None ->
  run (handle_json_and_create_server env reply gid) (mkState convs tr) =
    (Ok tt, mkState convs (tr1 ++ [(UserSend critical_notice, None)])) /\
  run (create_server_from_json env guild data) (mkState convs tr1) =
    (Ok tt, mkState convs (tr1 ++ [(UserSend critical_notice, None)])).
Proof.
  intros tr1 Hg Hreb Hx Hj Hobj Hsend. unfold run.
  assert (Happly : create_server_from_json env guild data (mkState convs tr1) =
                   (Ok tt, mkState convs (tr1 ++ [(UserSend critical_notice, None)]))).
  { rewrite (create_server_from_non_object env guild data _ Hobj).
    now rewrite perform_eq, Hsend. }
  split; [|exact Happly].
  unfold handle_json_and_create_server. rewrite Hg.
  unfold bind at 1. rewrite perform_eq, Hreb. cbn [outcome].
  unfold try_except, bind, lift. rewrite Hx, Hj. fold tr1. now rewrite Happly.
Qed.

(** The payload of a reply [prelude ```json\n payload \n``` postlude] in
    which the opening delimiter occurs once and no closing fence starts
    inside the payload. *)
Lemma fenced_payload_extracted (prelude payload postlude : string) :
  Str.contains open_fence (prelude +:+ fence_marker) = false ->
  Str.contains open_fence (payload +:+ close_fence +:+ postlude) = false ->
  Str.contains close_fence (payload +:+ nl +:+ "``") = false ->
  extract_json_string (prelude +:+ open_fence +:+ payload +:+ close_fence +:+ postlude)
  = Ok payload.
Proof.
  intros H1 H2 H3. rewrite extract_json_string_cut.
  change open_fence with (fence_marker +:+ nl) in *.
  unfold nl at 1 2.
  rewrite (cut_first fence_marker _ prelude _ H1).
  unfold before at 2. rewrite (cut_absent _ _ H2).
  unfold before.
  change close_fence with ((nl +:+ "``") +:+ "`").
  rewrite (cut_first (nl +:+ "``") "`" payload postlude); [reflexivity|].
  exact H3.
Qed.

Lemma contains_here (sep r : string) : Str.contains sep (sep +:+ r) = true.
Proof.
  assert (H := starts_with_append sep r).
  destruct (sep +:+ r); cbn [Str.contains]; now rewrite H.
Qed.

Lemma contains_later (sep p r : string) :
  Str.contains sep r = true -> Str.contains sep (p +:+ r) = true.
Proof.
  intros H. induction p as [|c p IH]; [exact H|].
  rewrite append_cons. cbn [Str.contains].
  now destruct (Str.starts_with sep (String c (p +:+ r))).
Qed.

(** A decoded plan is handed to [create_server_from_json] under the three
    handlers. *)
Lemma handle_plan (env : Env) (reply payload : string) (data : json)
    (gid : Z) (guild : Guild) (convs : gmap Z Session) (tr : list event) :
  get_guild env gid = Some guild ->
  oracle env tr (ChannelSend (rebuilding_notice guild)) = None ->
  extract_json_string reply = Ok payload ->
  json_loads env payload = Ok data ->
  handle_json_and_create_server env reply gid (mkState convs tr) =
  try_except (create_server_from_json env guild data) (extraction_handlers env)
    (mkState convs (tr ++ [(ChannelSend (rebuilding_notice guild), None)])).
Proof.
  intros Hg Hreb Hx Hj. unfold handle_json_and_create_server. rewrite Hg.
  unfold bind at 1. rewrite perform_eq, Hreb. cbn [outcome].
  unfold try_except, bind, lift. now rewrite Hx, Hj.
Qed.

(** A reply without the marker goes to the user as it is; the session
    stays, with the two new turns. *)
Lemma reply_without_marker_relayed
    (env : Env) (message : Message) (s : Session)
    (convs : gmap Z Session) (tr : list event) :
  let uid := author_id message in
  let history := messages s ++ [mkTurn user (message_content message)] in
  let reply := completion env history in
  let tr0 := tr ++ [(Typing, None)] in
  let tr1 := tr0 ++ [(ChatCompletion history, None)] in
  author_is_bot message = false ->
  in_dm message = true ->
  convs !! uid = Some s ->
  oracle env tr Typing = None ->
  oracle env tr0 (ChatCompletion history) = None ->
  Str.contains fence_marker reply = false ->
  oracle env tr1 (ChannelSend reply) = None ->
  run (on_message env message) (mkState convs tr) =
  (Ok tt,
   mkState (<[uid := mkSession (history ++ [mkTurn assistant reply]) (guild_id s)]> convs)
     (tr1 ++ [(ChannelSend reply, None)])).
Proof.
  intros uid history reply tr0 tr1 Hbot Hdm Hs Hty Hchat Hmark Hsend.
  unfold run. rewrite (on_message_open env message s convs tr Hbot Hdm Hs Hty).
  fold uid. fold history. fold tr0.
  set (s1 := mkSession history (guild_id s)).
  assert (H1 : <[uid := s1]> convs !! uid = Some s1) by apply lookup_insert_eq.
  unfold try_except.
  rewrite (exchange_conversational env uid s1 _ tr0 H1 Hchat Hmark).
  cbn [messages guild_id s1]. fold reply. fold tr1.
  rewrite perform_eq, Hsend. cbn [outcome].
  now rewrite insert_insert_eq.
Qed.

(** C6.  The session table maps a user to one session, so a user never
    has two.  A [/start] of a user who has a session makes one call, the
    reply that turns the request down, and leaves the table as it was: no
    session is added, and the user's session keeps its messages and its
    guild. *)
Theorem duplicate_start_rejected
    (env : Env) (interaction : Interaction) (s : Session)
    (convs : gmap Z Session) (tr : list event) :
  let uid := interaction_user_id interaction in
  let notice :=
    if interaction_is_administrator interaction then already_started_notice
    else not_admin_notice in
  let o := oracle env tr (ResponseSend notice) in
  convs !! uid = Some s ->
  exists st',
    run (start_command env interaction) (mkState convs tr) = (outcome o, st') /\
    user_conversations st' = convs /\
    user_conversations st' !! uid = Some s /\
    trace st' = tr ++ [(ResponseSend notice, o)].
Proof.
  intros uid notice o Hs. unfold run, start_command. subst notice o.
  destruct (interaction_is_administrator interaction); cbn [negb].
  - unfold bind. rewrite has_session_eq. fold uid. rewrite Hs.
    rewrite bool_decide_eq_true_2 by eauto. rewrite perform_eq.
    eexists. split; [reflexivity|]. cbn. auto.
  - rewrite perform_eq. eexists. split; [reflexivity|]. cbn. auto.
Qed.

(** ** The reconfiguration *)

Section Apply.
Variable env : Env.
Variable guild : Guild.

(** Both outer handlers send one notice, chosen by the exception's
    class. *)
Lemma create_server_raise (data : json) (st st' : State) (e : exn) :
  reconfigure env guild data st = (Raise e, st') ->
  create_server_from_json env guild data st =
  perform env (UserSend (failure_notice e)) st'.
Proof.
  intros H. unfold create_server_from_json, try_except, failure_notice.
  rewrite H. now destruct (is_HTTPException e).
Qed.

(** The channel loop: deletions that return are followed by the next
    one, the first that raises ends the loop. *)
Lemma channel_wipe_stops (done rest : list Channel) (ch : Channel) (e : exn)
    (convs : gmap Z Session) (tr : list event) :
  let ok p := map (fun c => (ChannelDelete c, @None exn)) p in
  (forall p c r, done = p ++ c :: r ->
                 oracle env (tr ++ ok p) (ChannelDelete c) = None) ->
  oracle env (tr ++ ok done) (ChannelDelete ch) = Some e ->
  for_each (done ++ ch :: rest) (fun channel => perform env (ChannelDelete channel))
    (mkState convs tr) =
  (Raise e, mkState convs ((tr ++ ok done) ++ [(ChannelDelete ch, Some e)])).
Proof.
  intros ok. revert tr.
  induction done as [|x done IH]; intros tr Hok Hfail.
  - cbn [app for_each]. unfold bind. rewrite perform_eq.
    cbn [ok map] in Hfail |- *. rewrite app_nil_r in Hfail |- *.
    now rewrite Hfail.
  - cbn [app for_each]. unfold bind at 1. rewrite perform_eq.
    assert (Hx : oracle env tr (ChannelDelete x) = None).
    { specialize (Hok [] x done eq_refl). cbn [ok map] in Hok.
      now rewrite app_nil_r in Hok. }
    rewrite Hx. cbn [outcome].
    rewrite IH.
    + cbn [ok map]. now rewrite <- !app_assoc.
    + intros p c r ->. specialize (Hok (x :: p) c r eq_refl).
      cbn [ok map] in Hok. now rewrite <- app_assoc.
    + cbn [ok map] in Hfail. now rewrite <- app_assoc.
Qed.

End Apply.

(** C2, as the code has it.  A rename that raises ends the procedure: the
    exception reaches the outer handlers, the user gets the failure
    notice, and neither wipe nor creation is attempted. *)
Theorem rename_failure_aborts
    (env : Env) (guild : Guild) (data name : json) (e : exn)
    (convs : gmap Z Session) (tr : list event) :
  let tr1 := tr ++ [(GuildEdit name, Some e)] in
  let o := oracle env tr1 (UserSend (failure_notice e)) in
  Py.get data "server_name" (JString (guild_name guild)) = Ok name ->
  oracle env tr (GuildEdit name) = Some e ->
  run (create_server_from_json env guild data) (mkState convs tr) =
    (outcome o, mkState convs (tr1 ++ [(UserSend (failure_notice e), o)])).
Proof.
  intros tr1 o Hname Hfail. unfold run.
  rewrite (create_server_raise env guild data _ (mkState convs tr1) e).
  - now rewrite perform_eq.
  - unfold reconfigure, bind, lift. rewrite Hname, perform_eq, Hfail. reflexivity.
Qed.

(** C3, as the code has it.  Channels are deleted in the order listed;
    the first deletion that raises ends the wipe: the channels after it are
    not attempted, nothing else of the procedure runs, and the user gets
    the failure notice. *)
Theorem channel_wipe_stops_at_first_failure
    (env : Env) (guild : Guild) (data name : json) (e : exn)
    (done rest : list Channel) (ch : Channel)
    (convs : gmap Z Session) (tr : list event) :
  let tr1 := wiped tr name done ++ [(ChannelDelete ch, Some e)] in
  let o := oracle env tr1 (UserSend (failure_notice e)) in
  Py.get data "server_name" (JString (guild_name guild)) = Ok name ->
  guild_channels guild = done ++ ch :: rest ->
  oracle env tr (GuildEdit name) = None ->
  oracle env (tr ++ [(GuildEdit name, None)]) FetchChannels = None ->
  (forall p c r, done = p ++ c :: r -> oracle env (wiped tr name p) (ChannelDelete c) = None) ->
  oracle env (wiped tr name done) (ChannelDelete ch) = Some e ->
  run (create_server_from_json env guild data) (mkState convs tr) =
    (outcome o, mkState convs (tr1 ++ [(UserSend (failure_notice e), o)])).
Proof.
  intros tr1 o Hname Hch Hedit Hfetch Hok Hfail. unfold run.
  assert (Hw : forall p, wiped tr name p =
                 ((tr ++ [(GuildEdit name, None)]) ++ [(FetchChannels, None)])
                   ++ map (fun c => (ChannelDelete c, None)) p).
  { intros p. unfold wiped. now rewrite <- !app_assoc. }
  rewrite (create_server_raise env guild data _ (mkState convs tr1) e).
  - now rewrite perform_eq.
  - unfold reconfigure. unfold bind at 1, lift. rewrite Hname.
    unfold bind at 1. rewrite perform_eq, Hedit. cbn [outcome].
    unfold bind at 1. unfold bind at 1. unfold fetch_channels, bind at 1.
    rewrite perform_eq, Hfetch. cbn [outcome ret]. rewrite Hch.
    rewrite (channel_wipe_stops env done rest ch e).
    + unfold tr1. now rewrite Hw.
    + intros p c r Hp. rewrite <- Hw. now apply (Hok p c r).
    + now rewrite <- Hw.
Qed.

(** ** Events a computation can add *)

Section Adds.
Variable env : Env.
Variable P : event -> Prop.

Lemma adds_ret {A} (a : A) : adds P (ret a).
Proof. intros st. exists []. cbn. now rewrite app_nil_r. Qed.

Lemma adds_lift {A} (r : result A) : adds P (lift r).
Proof. intros st. exists []. cbn. now rewrite app_nil_r. Qed.

Lemma adds_bind {A B} (m : M A) (k : A -> M B) :
  adds P m -> (forall a, adds P (k a)) -> adds P (bind m k).
Proof.
  intros Hm Hk st. unfold bind.
  destruct (Hm st) as (evs & E & HP).
  destruct (m st) as [[a|e] st']; cbn [snd] in E.
  - destruct (Hk a st') as (evs' & E' & HP').
    exists (evs ++ evs'). rewrite E', E, app_assoc. split; [reflexivity|].
    now apply Forall_app.
  - now exists evs.
Qed.

Lemma adds_try_except {A} (m : M A) (handler : exn -> option (M A)) :
  adds P m -> (forall e h, handler e = Some h -> adds P h) ->
  adds P (try_except m handler).
Proof.
  intros Hm Hh st. unfold try_except.
  destruct (Hm st) as (evs & E & HP).
  destruct (m st) as [[a|e] st']; cbn [snd] in E; [now exists evs|].
  destruct (handler e) as [h|] eqn:Eh; [|now exists evs].
  destruct (Hh e h Eh st') as (evs' & E' & HP').
  exists (evs ++ evs'). rewrite E', E, app_assoc. split; [reflexivity|].
  now apply Forall_app.
Qed.

Lemma adds_for_each {A} (xs : list A) (body : A -> M unit) :
  (forall x, In x xs -> adds P (body x)) -> adds P (for_each xs body).
Proof.
  induction xs as [|x xs IH]; intros H; cbn [for_each].
  - apply adds_ret.
  - apply adds_bind; [apply H; now left|].
    intros _. apply IH. intros y Hy. apply H. now right.
Qed.

Lemma adds_perform (c : call) : (forall o, P (c, o)) -> adds P (perform env c).
Proof.
  intros H [convs tr]. rewrite perform_eq. cbn.
  exists [(c, oracle env tr c)]. split; [reflexivity|]. constructor; [apply H | constructor].
Qed.

Lemma adds_create_category (name : json) :
  (forall o, P (CreateCategory name, o)) -> adds P (create_category env name).
Proof.
  intros H st. unfold create_category.
  apply (adds_bind (perform env (CreateCategory name)) (fun _ => ret (length (trace st)))).
  - now apply adds_perform.
  - intros _. apply adds_ret.
Qed.

End Adds.

Section RoleWipe.
Variable env : Env.
Variable guild : Guild.

Local Abbreviation P := (respects_roles guild).

Lemma wipe_role_adds (r : Role) : In r (guild_roles guild) -> adds P (wipe_role env r).
Proof.
  intros Hin. unfold wipe_role.
  destruct (role_is_default r) eqn:Ed; cbn [orb]; [apply adds_ret|].
  destruct (role_is_integration r) eqn:Ei; [apply adds_ret|].
  apply adds_try_except.
  - apply adds_perform. intros o. cbn. auto.
  - intros e h. destruct (is_Forbidden e); [|discriminate].
    intros [= <-]. apply adds_ret.
Qed.

Lemma create_role_entry_adds (role_info : json) : adds P (create_role_entry env role_info).
Proof.
  unfold create_role_entry. apply adds_bind; [apply adds_lift|]. intros name.
  destruct (_ && _); [|apply adds_ret].
  apply adds_try_except.
  - apply adds_perform. intros o. exact I.
  - intros e h [= <-]. apply adds_ret.
Qed.

Lemma create_channel_entry_adds (cat : nat) (channel_info : json) :
  adds P (create_channel_entry env cat channel_info).
Proof.
  unfold create_channel_entry.
  apply adds_bind; [apply adds_lift|]. intros name.
  apply adds_bind; [apply adds_lift|]. intros kind.
  apply adds_bind; [apply adds_lift|]. intros channel_type.
  destruct (negb _); [apply adds_ret|].
  apply adds_try_except.
  - destruct (Py.eq_str channel_type "text");
      [apply adds_perform; intros o; exact I|].
    destruct (Py.eq_str channel_type "voice");
      [apply adds_perform; intros o; exact I | apply adds_ret].
  - intros e h [= <-]. apply adds_ret.
Qed.

Lemma create_category_entry_adds (category_info : json) :
  adds P (create_category_entry env category_info).
Proof.
  unfold create_category_entry.
  apply adds_bind; [apply adds_lift|]. intros name.
  destruct (negb _); [apply adds_ret|].
  apply adds_try_except.
  - apply adds_bind.
    + apply adds_create_category. intros o. exact I.
    + intros cat. apply adds_bind; [apply adds_lift|]. intros has.
      destruct has; [|apply adds_ret].
      apply adds_bind; [apply adds_lift|]. intros channels.
      apply adds_bind; [apply adds_lift|]. intros items.
      apply adds_for_each. intros x _. apply create_channel_entry_adds.
  - intros e h [= <-]. apply adds_ret.
Qed.

Lemma reconfigure_adds (data : json) : adds P (reconfigure env guild data).
Proof.
  unfold reconfigure.
  apply adds_bind; [apply adds_lift|]. intros name.
  apply adds_bind; [apply adds_perform; intros o; exact I|]. intros _.
  apply adds_bind.
  { apply adds_bind.
    - unfold fetch_channels. apply adds_bind; [|intros; apply adds_ret].
      apply adds_perform. intros o. exact I.
    - intros channels. apply adds_for_each. intros c _.
      apply adds_perform. intros o. exact I. }
  intros _. apply adds_bind.
  { apply adds_for_each. intros r Hr. now apply wipe_role_adds. }
  intros _. apply adds_bind.
  { apply adds_bind; [apply adds_lift|]. intros has.
    destruct has; [|apply adds_ret].
    apply adds_bind; [apply adds_lift|]. intros roles.
    apply adds_bind; [apply adds_lift|]. intros items.
    apply adds_for_each. intros x _. apply create_role_entry_adds. }
  intros _. apply adds_bind.
  { apply adds_bind; [apply adds_lift|]. intros has.
    destruct has; [|apply adds_ret].
    apply adds_bind; [apply adds_lift|]. intros categories.
    apply adds_bind; [apply adds_lift|]. intros items.
    apply adds_for_each. intros x _. apply create_category_entry_adds. }
  intros _. apply adds_perform. intros o. exact I.
Qed.

Lemma create_server_from_json_adds (data : json) :
  adds P (create_server_from_json env guild data).
Proof.
  unfold create_server_from_json. apply adds_try_except.
  - apply reconfigure_adds.
  - intros e h. destruct (is_HTTPException e); intros [= <-];
      apply adds_perform; intros o; exact I.
Qed.

End RoleWipe.

(** C9.  Every [RoleDelete] the procedure issues, with whatever outcome, is
    for a role of the guild that is neither the default role nor managed by
    an integration. *)
Theorem wipe_spares_default_and_managed_roles
    (env : Env) (guild : Guild) (data : json) (st : State) (r : Role) (o : option exn) :
  In (RoleDelete r, o) (trace (snd (run (create_server_from_json env guild data) st))) ->
  In (RoleDelete r, o) (trace st) \/
  (In r (guild_roles guild) /\ role_is_default r = false /\ role_is_integration r = false).
Proof.
  intros Hin. unfold run in Hin.
  destruct (create_server_from_json_adds env guild data st) as (evs & E & HP).
  rewrite E in Hin. apply in_app_or in Hin as [Hold | Hnew]; [now left | right].
  exact (proj1 (List.Forall_forall _ _) HP _ Hnew).
Qed.

(** ** Channel kinds *)

Lemma lower_upper (c : ascii) : Str.lower_ascii (upper_ascii c) = Str.lower_ascii c.
Proof. destruct c as [[] [] [] [] [] [] [] []]; reflexivity. Qed.

(** Every spelling of [w] in another letter case lowers to what [w] lowers
    to. *)
Lemma letter_cases_lower (w k : string) :
  In k (letter_cases w) -> Str.lower k = Str.lower w.
Proof.
  revert k. induction w as [|c w IH]; intros k Hk.
  - destruct Hk as [<- | []]. reflexivity.
  - cbn [letter_cases] in Hk. apply in_flat_map in Hk as (v & Hv & Hk).
    specialize (IH v Hv).
    destruct Hk as [<- | [<- | []]]; cbn [Str.lower]; rewrite IH; [reflexivity|].
    now rewrite lower_upper.
Qed.

Section ChannelEntry.
Variable env : Env.
Variable cat : nat.
Variable kvs : list (string * json).
Variable name : json.
Variable convs : gmap Z Session.
Variable tr : list event.
Hypothesis Hname : Py.dict_get "name" kvs = Some name.
Hypothesis Htruthy : Py.truthy name = true.

(** The entry's run once the lowered kind is known. *)
Lemma channel_entry_of_kind (kind : json) (k : string) :
  Py.get (JObject kvs) "type" (JString "text") = Ok kind ->
  Py.lower kind = Ok (JString k) ->
  create_channel_entry env cat (JObject kvs) (mkState convs tr) =
  try_except
    (if String.eqb k "text" then perform env (CreateTextChannel name cat)
     else if String.eqb k "voice" then perform env (CreateVoiceChannel name cat)
     else ret tt)
    (fun _ => Some (ret tt)) (mkState convs tr).
Proof.
  intros Hk Hl. unfold create_channel_entry, bind, lift.
  cbn [Py.get]. rewrite Hname. cbn [Py.get] in Hk. rewrite Hk, Hl, Htruthy.
  reflexivity.
Qed.

Lemma guarded_call (c : call) :
  try_except (perform env c) (fun _ => Some (ret tt)) (mkState convs tr) =
  (Ok tt, mkState convs (tr ++ [(c, oracle env tr c)])).
Proof. unfold try_except. rewrite perform_eq. now destruct (oracle env tr c). Qed.

End ChannelEntry.

(** C4, as the code has it.  For a channel entry with a non-empty name: a
    missing kind, or [text] in any letter case, makes a text channel under
    the category; [voice] in any letter case makes a voice channel under
    it; any other string makes no channel at all. *)
Theorem channel_kind_dispatch
    (env : Env) (cat : nat) (kvs : list (string * json)) (name : json)
    (convs : gmap Z Session) (tr : list event) :
  let entry := run (create_channel_entry env cat (JObject kvs)) (mkState convs tr) in
  let created c := (Ok tt, mkState convs (tr ++ [(c, oracle env tr c)])) in
  Py.dict_get "name" kvs = Some name ->
  Py.truthy name = true ->
  (Py.dict_get "type" kvs = None -> entry = created (CreateTextChannel name cat)) /\
  (forall k : string,
     Py.dict_get "type" kvs = Some (JString k) ->
     (In k (letter_cases "text") -> entry = created (CreateTextChannel name cat)) /\
     (In k (letter_cases "voice") -> entry = created (CreateVoiceChannel name cat)) /\
     (Str.lower k <> "text" -> Str.lower k <> "voice" ->
      entry = (Ok tt, mkState convs tr))).
Proof.
  intros entry created Hname Htruthy. subst entry created. unfold run.
  split; [|intros k Hk; repeat split].
  - intros Hk.
    rewrite (channel_entry_of_kind env cat kvs name convs tr Hname Htruthy
               (JString "text") "text");
      [apply guarded_call | cbn [Py.get]; now rewrite Hk | reflexivity].
  - intros Hin. apply letter_cases_lower in Hin.
    rewrite (channel_entry_of_kind env cat kvs name convs tr Hname Htruthy
               (JString k) (Str.lower k));
      [|cbn [Py.get]; now rewrite Hk | reflexivity].
    rewrite Hin. apply guarded_call.
  - intros Hin. apply letter_cases_lower in Hin.
    rewrite (channel_entry_of_kind env cat kvs name convs tr Hname Htruthy
               (JString k) (Str.lower k));
      [|cbn [Py.get]; now rewrite Hk | reflexivity].
    rewrite Hin. apply guarded_call.
  - intros Ht Hv.
    rewrite (channel_entry_of_kind env cat kvs name convs tr Hname Htruthy
               (JString k) (Str.lower k));
      [|cbn [Py.get]; now rewrite Hk | reflexivity].
    apply String.eqb_neq in Ht, Hv. now rewrite Ht, Hv.
Qed.

(** ** The session table during the reconfiguration *)

Section Keeps.
Variable env : Env.

Lemma keeps_ret {A} (a : A) : keeps_sessions (ret a).
Proof. now intros st. Qed.

Lemma keeps_lift {A} (r : result A) : keeps_sessions (lift r).
Proof. now intros st. Qed.

Lemma keeps_perform (c : call) : keeps_sessions (perform env c).
Proof. intros [convs tr]. now rewrite perform_eq. Qed.

Lemma keeps_bind {A B} (m : M A) (k : A -> M B) :
  keeps_sessions m -> (forall a, keeps_sessions (k a)) -> keeps_sessions (bind m k).
Proof.
  intros Hm Hk st. unfold bind. specialize (Hm st).
  destruct (m st) as [[a|e] st']; cbn [snd] in Hm; [|exact Hm].
  now rewrite Hk.
Qed.

Lemma keeps_try_except {A} (m : M A) (handler : exn -> option (M A)) :
  keeps_sessions m -> (forall e h, handler e = Some h -> keeps_sessions h) ->
  keeps_sessions (try_except m handler).
Proof.
  intros Hm Hh st. unfold try_except. specialize (Hm st).
  destruct (m st) as [[a|e] st']; cbn [snd] in Hm; [exact Hm|].
  destruct (handler e) as [h|] eqn:Eh; [|exact Hm].
  now rewrite (Hh e h Eh).
Qed.

Lemma keeps_for_each {A} (xs : list A) (body : A -> M unit) :
  (forall x, keeps_sessions (body x)) -> keeps_sessions (for_each xs body).
Proof.
  intros H. induction xs as [|x xs IH]; cbn [for_each]; [apply keeps_ret|].
  apply keeps_bind; [apply H | intros _; exact IH].
Qed.

Ltac keeps :=
  repeat first
    [ apply keeps_ret | apply keeps_lift | apply keeps_perform
    | apply keeps_bind; [|intros ?]
    | apply keeps_for_each; intros ?
    | apply keeps_try_except; [|intros ? ? ?]
    | match goal with
      | |- keeps_sessions (if ?b then _ else _) => destruct b
      | H : (if ?b then _ else _) = Some _ |- _ => destruct b
      | H : Some _ = Some _ |- _ => injection H as <-
      | H : None = Some _ |- _ => discriminate H
      end ].

Lemma create_server_from_json_keeps (guild : Guild) (data : json) :
  keeps_sessions (create_server_from_json env guild data).
Proof.
  unfold create_server_from_json, reconfigure, wipe_role, create_role_entry,
    create_category_entry, create_channel_entry, fetch_channels.
  keeps.
  intros st. unfold create_category. apply (keeps_bind _ _ (keeps_perform _)).
  intros _. apply keeps_ret.
Qed.

Lemma handle_json_keeps (reply : string) (gid : Z) :
  keeps_sessions (handle_json_and_create_server env reply gid).
Proof.
  unfold handle_json_and_create_server.
  destruct (get_guild env gid) as [guild|]; [|apply keeps_perform].
  apply keeps_bind; [apply keeps_perform|]. intros _.
  apply keeps_try_except.
  - apply keeps_bind; [apply keeps_lift|]. intros payload.
    apply keeps_bind; [apply keeps_lift|]. intros data.
    apply create_server_from_json_keeps.
  - intros e h. unfold extraction_handlers.
    destruct (exn_cls e); intros [= <-]; apply keeps_perform.
Qed.

(** Whatever the payload, the guild and the outcome of the calls: when the
    reply carries the marker and [on_message] returns, the user's session
    is gone. *)
Lemma terminal_reply_ends_session (message : Message) (s : Session)
    (convs : gmap Z Session) (tr : list event) (st' : State) :
  let uid := author_id message in
  let history := messages s ++ [mkTurn user (message_content message)] in
  author_is_bot message = false ->
  in_dm message = true ->
  convs !! uid = Some s ->
  oracle env tr Typing = None ->
  oracle env (tr ++ [(Typing, None)]) (ChatCompletion history) = None ->
  Str.contains fence_marker (completion env history) = true ->
  run (on_message env message) (mkState convs tr) = (Ok tt, st') ->
  user_conversations st' !! uid = None.
Proof.
  intros uid history Hbot Hdm Hs Hty Hchat Hmark. unfold run.
  rewrite (on_message_open env message s convs tr Hbot Hdm Hs Hty).
  fold uid. fold history.
  set (s1 := mkSession history (guild_id s)).
  assert (H1 : <[uid := s1]> convs !! uid = Some s1) by apply lookup_insert_eq.
  unfold try_except.
  rewrite (exchange_terminal env uid s1 _ _ H1 Hchat Hmark).
  cbn [messages guild_id s1].
  set (reply := completion env history).
  set (st2 := mkState _ _).
  assert (H2 : exists s2, user_conversations st2 !! uid = Some s2).
  { eexists. apply lookup_insert_eq. }
  destruct H2 as [s2 H2].
  unfold bind at 1.
  assert (Hk := handle_json_keeps reply (guild_id s) st2).
  destruct (handle_json_and_create_server env reply (guild_id s) st2)
    as [[[]|e] [convs3 tr3]]; cbn [snd user_conversations] in Hk.
  - rewrite <- Hk in H2. rewrite (del_session_eq _ _ _ _ H2).
    intros [= <-]. apply lookup_delete_eq.
  - unfold apologize, bind. rewrite perform_eq.
    destruct (oracle env tr3 (ChannelSend apology)); cbn [outcome]; [discriminate|].
    rewrite has_session_eq. rewrite <- Hk in H2. rewrite H2.
    rewrite bool_decide_eq_true_2 by eauto.
    rewrite (del_session_eq _ _ _ _ H2).
    intros [= <-]. apply lookup_delete_eq.
Qed.

End Keeps.

(** ** The sample world, run *)

Ltac refute_attempt :=
  let o := fresh "o" in
  let H := fresh "H" in
  intros [o H]; cbn in H;
  repeat (destruct H as [H | H]; [discriminate H|]); exact H.

(** Scenario C of the spec, run: the object in the fenced block is never
    closed, the user gets the notice that asks for another summary, and the
    session is gone. *)
Lemma malformed_payload_ends_session_witness :
  exists st',
    run (on_message (Sample.world (Sample.fenced Sample.unclosed_object) Sample.quiet)
           Sample.message) (mkState Sample.sessions []) = (Ok tt, st') /\
    user_conversations st' !! 42%Z = None /\
    trace st' =
      ((([] ++ [(Typing, None)]) ++ [(ChatCompletion Sample.history, None)])
         ++ [(ChannelSend (rebuilding_notice Sample.guild), None)])
      ++ [(ChannelSend bad_json_notice, None)].
Proof.
  apply (malformed_payload_ends_session
           (Sample.world (Sample.fenced Sample.unclosed_object) Sample.quiet)
           Sample.message Sample.session Sample.guild Sample.sessions [] bad_json_notice);
    try reflexivity.
  apply (payload_not_json _ _ Sample.unclosed_object Json.decode_error); reflexivity.
Defined.

(** The other sub-case, run: the marker is there, the newline after it is
    not. *)
Example missing_newline_run :
  let r := run (on_message (Sample.world "```json {}```" Sample.quiet) Sample.message)
             (mkState Sample.sessions []) in
  fst r = Ok tt /\
  user_conversations (snd r) !! 42%Z = None /\
  trace (snd r) =
    [(Typing, None); (ChatCompletion Sample.history, None);
     (ChannelSend (rebuilding_notice Sample.guild), None);
     (ChannelSend bad_fence_notice, None)].
Proof. repeat split; reflexivity. Qed.

Lemma generation_failure_ends_session_witness :
  exists st',
    run (on_message
           (Sample.world "" (Sample.failing Sample.is_completion Sample.timed_out))
           Sample.message) (mkState Sample.sessions []) = (Ok tt, st') /\
    trace st' = (([] ++ [(Typing, None)])
                   ++ [(ChatCompletion Sample.history, Some Sample.timed_out)])
                ++ [(ChannelSend apology, None)] /\
    user_conversations st' !! 42%Z = None.
Proof.
  apply (generation_failure_ends_session
           (Sample.world "" (Sample.failing Sample.is_completion Sample.timed_out))
           Sample.message Sample.session Sample.sessions [] Sample.timed_out);
    reflexivity.
Defined.

(** C7 as stated fails when the apology cannot be sent either: the
    handler raises, the user got nothing, and the session is still there,
    with the user's turn in it. *)
Lemma undelivered_apology_keeps_session :
  let r := run (on_message (Sample.world "" Sample2.all_down) Sample.message)
             (mkState Sample.sessions []) in
  fst r = Raise Sample.timed_out /\
  trace (snd r) =
    [(Typing, None); (ChatCompletion Sample.history, Some Sample.timed_out);
     (ChannelSend apology, Some Sample.timed_out)] /\
  user_conversations (snd r) !! 42%Z = Some (mkSession Sample.history 7).
Proof. repeat split; reflexivity. Qed.

Lemma unreachable_target_aborts_witness :
  run (handle_json_and_create_server (Sample.world_without_guild (Sample.fenced "{}"))
         (Sample.fenced "{}") 7) (mkState Sample.sessions []) =
    (Ok tt, mkState Sample.sessions [(ChannelSend not_visible_notice, None)]) /\
  mutates (ChannelSend not_visible_notice) = false.
Proof.
  apply (unreachable_target_aborts (Sample.world_without_guild (Sample.fenced "{}"))
           (Sample.fenced "{}") 7 Sample.sessions []).
  reflexivity.
Defined.

Lemma duplicate_start_rejected_witness :
  exists st',
    run (start_command (Sample.world "" Sample.quiet) Sample.interaction)
      (mkState Sample.sessions []) = (Ok tt, st') /\
    user_conversations st' = Sample.sessions /\
    user_conversations st' !! 42%Z = Some Sample.session /\
    trace st' = [] ++ [(ResponseSend already_started_notice, None)].
Proof.
  apply (duplicate_start_rejected (Sample.world "" Sample.quiet) Sample.interaction
           Sample.session Sample.sessions []).
  reflexivity.
Defined.

Lemma non_object_payload_reaches_apply_witness :
  let env := Sample.world (Sample.fenced "[1, 2]") Sample.quiet in
  let tr1 := [] ++ [(ChannelSend (rebuilding_notice Sample.guild), None)] in
  run (handle_json_and_create_server env (Sample.fenced "[1, 2]") 7)
    (mkState Sample.sessions []) =
    (Ok tt, mkState Sample.sessions (tr1 ++ [(UserSend critical_notice, None)])) /\
  run (create_server_from_json env Sample.guild (JArray [JInt 1; JInt 2]))
    (mkState Sample.sessions tr1) =
    (Ok tt, mkState Sample.sessions (tr1 ++ [(UserSend critical_notice, None)])).
Proof.
  apply (non_object_payload_reaches_apply
           (Sample.world (Sample.fenced "[1, 2]") Sample.quiet)
           (Sample.fenced "[1, 2]") "[1, 2]" (JArray [JInt 1; JInt 2]) 7 Sample.guild
           Sample.sessions []);
    reflexivity.
Defined.

Lemma wipe_spares_default_and_managed_roles_witness :
  In (RoleDelete Sample.mods, None) (trace (initial Sample.sessions)) \/
  (In Sample.mods (guild_roles Sample.guild) /\
   role_is_default Sample.mods = false /\ role_is_integration Sample.mods = false).
Proof.
  apply (wipe_spares_default_and_managed_roles (Sample.world "" Sample.quiet)
           Sample.guild Sample.nova (initial Sample.sessions) Sample.mods None).
  cbn. do 4 right. left. reflexivity.
Defined.

(** The whole wipe of the sample guild: of its three roles only [Mods] is
    deleted. *)
Example sample_wipe :
  trace (snd (run (create_server_from_json (Sample.world "" Sample.quiet)
                     Sample.guild Sample.nova) (initial Sample.sessions))) =
  [(GuildEdit (JString "Nova"), None); (FetchChannels, None);
   (ChannelDelete Sample.general, None); (ChannelDelete Sample.lounge, None);
   (RoleDelete Sample.mods, None);
   (UserSend (success_message Sample.guild), None)].
Proof. reflexivity. Qed.

(** C5 as stated fails on a reply with a second opening delimiter before
    the closing fence: the text between the first opening delimiter and the
    first closing fence is [{}```json], which no decoder accepts, while the
    chained [split] stops at the second delimiter and yields [{}], a valid
    empty plan. *)
Lemma extraction_stops_at_second_opening :
  let reply := open_fence +:+ "{}" +:+ open_fence +:+ "```" in
  Str.contains fence_marker reply = true /\
  between_fences reply = Some "{}```json" /\
  extract_json_string reply = Ok "{}" /\
  extract_json_string reply <> Ok "{}```json" /\
  Json.loads "{}" = Ok (JObject []) /\
  Json.loads "{}```json" = Raise Json.decode_error /\
  calls (trace (snd (run (on_message (Sample.world reply Sample.quiet) Sample.message)
                       (mkState Sample.sessions [])))) =
    [Typing; ChatCompletion Sample.history; ChannelSend (rebuilding_notice Sample.guild);
     GuildEdit (JString "Old"); FetchChannels;
     ChannelDelete Sample.general; ChannelDelete Sample.lounge; RoleDelete Sample.mods;
     UserSend (success_message Sample.guild)].
Proof. repeat split; try reflexivity. discriminate. Qed.

(** The first opening delimiter wins: when the prose before the block
    mentions the marker at the end of a line, the text extracted is the
    prose that follows it, not the plan. *)
Example extraction_takes_first_opening :
  let reply := "Use a " +:+ open_fence +:+ "block: " +:+ open_fence +:+ "{}" +:+ close_fence in
  extract_json_string reply = Ok "block: " /\
  Json.loads "block: " = Raise Json.decode_error.
Proof. split; reflexivity. Qed.

(** ** Where the stated tolerance fails *)

(** C2 as stated fails when the rename is refused: the channel wipe is
    never reached, the two calls made are the rename and the failure
    notice. *)
Lemma rename_failure_is_fatal :
  let env := Sample.world "" (Sample.failing Sample.is_rename Sample.missing_permissions) in
  let tr := trace (snd (run (create_server_from_json env Sample.guild Sample.nova)
                          (initial Sample.sessions))) in
  tr = [(GuildEdit (JString "Nova"), Some Sample.missing_permissions);
        (UserSend (api_error_notice "Missing Permissions"), None)] /\
  ~ attempted FetchChannels tr /\
  ~ attempted (ChannelDelete Sample.general) tr /\
  ~ attempted (RoleDelete Sample.mods) tr.
Proof. repeat split; try reflexivity; refute_attempt. Qed.

Lemma rename_failure_aborts_witness :
  let env := Sample.world "" (Sample.failing Sample.is_rename Sample.missing_permissions) in
  run (create_server_from_json env Sample.guild Sample.nova) (mkState Sample.sessions []) =
  (Ok tt,
   mkState Sample.sessions
     (([] ++ [(GuildEdit (JString "Nova"), Some Sample.missing_permissions)])
        ++ [(UserSend (failure_notice Sample.missing_permissions), None)])).
Proof.
  apply (rename_failure_aborts
           (Sample.world "" (Sample.failing Sample.is_rename Sample.missing_permissions))
           Sample.guild Sample.nova (JString "Nova") Sample.missing_permissions
           Sample.sessions []);
    reflexivity.
Defined.

(** C3 as stated fails when the first channel cannot be deleted: the
    second channel is never attempted. *)
Lemma channel_wipe_is_not_independent :
  let env := Sample.world "" (Sample.failing (Sample.is_delete_of 1) Sample.missing_permissions) in
  let tr := trace (snd (run (create_server_from_json env Sample.guild Sample.nova)
                          (initial Sample.sessions))) in
  tr = [(GuildEdit (JString "Nova"), None); (FetchChannels, None);
        (ChannelDelete Sample.general, Some Sample.missing_permissions);
        (UserSend (api_error_notice "Missing Permissions"), None)] /\
  In Sample.lounge (guild_channels Sample.guild) /\
  ~ attempted (ChannelDelete Sample.lounge) tr.
Proof.
  repeat split; try reflexivity.
  - right. left. reflexivity.
  - refute_attempt.
Qed.

Lemma channel_wipe_stops_at_first_failure_witness :
  let env := Sample.world "" (Sample.failing (Sample.is_delete_of 2) Sample.missing_permissions) in
  run (create_server_from_json env Sample.guild Sample.nova) (mkState Sample.sessions []) =
  (Ok tt,
   mkState Sample.sessions
     ((wiped [] (JString "Nova") [Sample.general]
         ++ [(ChannelDelete Sample.lounge, Some Sample.missing_permissions)])
        ++ [(UserSend (failure_notice Sample.missing_permissions), None)])).
Proof.
  apply (channel_wipe_stops_at_first_failure
           (Sample.world "" (Sample.failing (Sample.is_delete_of 2) Sample.missing_permissions))
           Sample.guild Sample.nova (JString "Nova") Sample.missing_permissions
           [Sample.general] [] Sample.lounge Sample.sessions []);
    try reflexivity.
  intros p c r Hp. destruct p as [|x p].
  - injection Hp as <- _. reflexivity.
  - injection Hp as _ Hp. destruct p; discriminate Hp.
Defined.

(** C4 as stated fails on a kind that is neither [text] nor [voice]: the
    entry [ideas] of kind [forum] gets no channel of any kind, while its
    neighbours are created under the category made by call number 5. *)
Lemma unrecognized_kind_makes_no_channel :
  let env := Sample.world "" Sample.quiet in
  let tr := trace (snd (run (create_server_from_json env Sample.guild Sample.plan_with_forum)
                          (initial Sample.sessions))) in
  tr = [(GuildEdit (JString "Old"), None); (FetchChannels, None);
        (ChannelDelete Sample.general, None); (ChannelDelete Sample.lounge, None);
        (RoleDelete Sample.mods, None);
        (CreateCategory (JString "Main"), None);
        (CreateTextChannel (JString "general") 5, None);
        (CreateVoiceChannel (JString "talk") 5, None);
        (UserSend (success_message Sample.guild), None)] /\
  ~ attempted (CreateTextChannel (JString "ideas") 5) tr /\
  ~ attempted (CreateVoiceChannel (JString "ideas") 5) tr.
Proof. repeat split; try reflexivity; refute_attempt. Qed.

Lemma channel_kind_dispatch_witness :
  let env := Sample.world "" Sample.quiet in
  let kvs := [("name", JString "general"); ("type", JString "TeXt")] in
  let entry := run (create_channel_entry env 5 (JObject kvs)) (mkState Sample.sessions []) in
  let created c := (Ok tt, mkState Sample.sessions ([] ++ [(c, @None exn)])) in
  (Py.dict_get "type" kvs = None -> entry = created (CreateTextChannel (JString "general") 5)) /\
  (forall k : string,
     Py.dict_get "type" kvs = Some (JString k) ->
     (In k (letter_cases "text") -> entry = created (CreateTextChannel (JString "general") 5)) /\
     (In k (letter_cases "voice") -> entry = created (CreateVoiceChannel (JString "general") 5)) /\
     (Str.lower k <> "text" -> Str.lower k <> "voice" ->
      entry = (Ok tt, mkState Sample.sessions []))).
Proof.
  apply (channel_kind_dispatch (Sample.world "" Sample.quiet) 5
           [("name", JString "general"); ("type", JString "TeXt")] (JString "general")
           Sample.sessions []);
    reflexivity.
Defined.

(** The spellings the theorem speaks of. *)
Example spellings_of_text :
  In "TEXT" (letter_cases "text") /\ In "Text" (letter_cases "text") /\
  In "text" (letter_cases "text") /\ In "voice" (letter_cases "voice") /\
  In "Voice" (letter_cases "voice") /\ length (letter_cases "voice") = 32.
Proof. cbn. repeat split; repeat (first [left; reflexivity | right]). Qed.

(** * More of the program *)

(** ** Messages the bot does not answer *)

(** A message of the bot itself, a message outside a direct-message
    channel, and a message of a user without a session: no call is made
    and nothing changes. *)
Theorem on_message_ignores (env : Env) (message : Message) (st : State) :
  author_is_bot message = true \/ in_dm message = false \/
  user_conversations st !! author_id message = None ->
  run (on_message env message) st = (Ok tt, st).
Proof.
  intros H. unfold run, on_message.
  destruct (author_is_bot message); [reflexivity|].
  destruct (in_dm message); [|reflexivity]. cbn [orb negb].
  destruct H as [H | [H | H]]; try discriminate.
  destruct st as [convs tr]. unfold bind. rewrite has_session_eq.
  cbn [user_conversations] in H. rewrite H.
  rewrite bool_decide_eq_false_2; [reflexivity|]. intros [x Hx]. discriminate.
Qed.

Lemma on_message_ignores_witness :
  run (on_message (Sample.world "hi" Sample.quiet) Sample2.stranger)
    (mkState Sample.sessions []) = (Ok tt, mkState Sample.sessions []).
Proof.
  apply (on_message_ignores (Sample.world "hi" Sample.quiet) Sample2.stranger
           (mkState Sample.sessions [])).
  right. right. reflexivity.
Defined.

(** ** How a handler changes the session table *)

Section Grows.
Variable env : Env.
Variable uid : Z.

Lemma extends_refl (s : Session) : extends s s.
Proof. split; [reflexivity|]. exists []. now rewrite app_nil_r. Qed.

Lemma extends_trans (a b c : Session) : extends a b -> extends b c -> extends a c.
Proof.
  intros [G1 [x X]] [G2 [y Y]]. split; [congruence|].
  exists (x ++ y). now rewrite Y, X, app_assoc.
Qed.

Lemma touches_only_refl (convs : gmap Z Session) : touches_only uid convs convs.
Proof.
  split; [reflexivity|]. intros s' H. exists s'. split; [exact H | apply extends_refl].
Qed.

Lemma touches_only_trans (a b c : gmap Z Session) :
  touches_only uid a b -> touches_only uid b c -> touches_only uid a c.
Proof.
  intros [F1 E1] [F2 E2]. split.
  - intros u Hu. now rewrite F2, F1.
  - intros s' H. destruct (E2 s' H) as (s1 & H1 & X1).
    destruct (E1 s1 H1) as (s0 & H0 & X0).
    exists s0. split; [exact H0 | eapply extends_trans; eassumption].
Qed.

Lemma grows_of_keeps {A} (m : M A) : keeps_sessions m -> grows_for uid m.
Proof. intros H st. rewrite H. apply touches_only_refl. Qed.

Lemma grows_bind {A B} (m : M A) (k : A -> M B) :
  grows_for uid m -> (forall a, grows_for uid (k a)) -> grows_for uid (bind m k).
Proof.
  intros Hm Hk st. unfold bind. specialize (Hm st).
  destruct (m st) as [[a|e] st']; cbn [snd] in Hm; [|exact Hm].
  eapply touches_only_trans; [exact Hm | apply Hk].
Qed.

Lemma grows_try_except {A} (m : M A) (handler : exn -> option (M A)) :
  grows_for uid m -> (forall e h, handler e = Some h -> grows_for uid h) ->
  grows_for uid (try_except m handler).
Proof.
  intros Hm Hh st. unfold try_except. specialize (Hm st).
  destruct (m st) as [[a|e] st']; cbn [snd] in Hm; [exact Hm|].
  destruct (handler e) as [h|] eqn:Eh; [|exact Hm].
  eapply touches_only_trans; [exact Hm | apply (Hh e h Eh)].
Qed.

Lemma grows_session_of : grows_for uid (session_of uid).
Proof.
  apply grows_of_keeps. intros st. unfold session_of.
  now destruct (user_conversations st !! uid).
Qed.

Lemma grows_has_session : grows_for uid (has_session uid).
Proof. apply grows_of_keeps. now intros st. Qed.

Lemma grows_append_turn (t : Turn) : grows_for uid (append_turn uid t).
Proof.
  intros [convs tr]. unfold append_turn, bind, session_of. cbn.
  destruct (convs !! uid) as [s|] eqn:E; cbn; [|apply touches_only_refl].
  split.
  - intros u Hu. now rewrite lookup_insert_ne.
  - intros s'. rewrite lookup_insert_eq. intros [= <-].
    exists s. split; [exact E|]. split; [reflexivity|]. now exists [t].
Qed.

Lemma grows_del_session : grows_for uid (del_session uid).
Proof.
  intros [convs tr]. unfold del_session. cbn.
  destruct (convs !! uid) as [s|] eqn:E; cbn; [|apply touches_only_refl].
  split.
  - intros u Hu. now rewrite lookup_delete_ne.
  - intros s'. rewrite lookup_delete_eq. discriminate.
Qed.

Lemma grows_apologize : grows_for uid (apologize env uid).
Proof.
  unfold apologize.
  apply grows_bind; [apply grows_of_keeps, keeps_perform|]. intros _.
  apply grows_bind; [apply grows_has_session|]. intros still.
  destruct still; [apply grows_del_session | apply grows_of_keeps, keeps_ret].
Qed.

Lemma grows_exchange : grows_for uid (exchange env uid).
Proof.
  unfold exchange.
  apply grows_bind; [apply grows_session_of|]. intros s.
  apply grows_bind.
  { apply grows_of_keeps. unfold chat_completion.
    apply keeps_bind; [apply keeps_perform | intros _; apply keeps_ret]. }
  intros reply.
  apply grows_bind; [apply grows_append_turn|]. intros _.
  destruct (Str.contains fence_marker reply).
  - apply grows_bind; [apply grows_session_of|]. intros s'.
    apply grows_bind; [apply grows_of_keeps, handle_json_keeps|]. intros _.
    apply grows_del_session.
  - apply grows_of_keeps, keeps_perform.
Qed.

End Grows.

Lemma on_message_grows (env : Env) (message : Message) :
  grows_for (author_id message) (on_message env message).
Proof.
  unfold on_message.
  destruct (_ || _); [apply grows_of_keeps, keeps_ret|].
  apply grows_bind; [apply grows_has_session|]. intros known.
  destruct known; [|apply grows_of_keeps, keeps_ret].
  apply grows_bind; [apply grows_of_keeps, keeps_perform|]. intros _.
  apply grows_bind; [apply grows_append_turn|]. intros _.
  apply grows_try_except; [apply grows_exchange|].
  intros e h [= <-]. apply grows_apologize.
Qed.

(** Whatever the outside world does, [on_message] leaves the sessions of
    the other users as they were, creates no session, and changes the
    author's session only by appending turns (or by deleting it): the
    turns already there and the guild stay. *)
Theorem on_message_append_only (env : Env) (message : Message) (st : State) :
  touches_only (author_id message) (user_conversations st)
    (user_conversations (snd (run (on_message env message) st))).
Proof. apply on_message_grows. Qed.



(** The typing request refused: the handler raises at once and nothing
    else happens. *)
Example typing_refused_run :
  run (on_message (Sample.world "hi" (Sample.failing Sample2.is_typing Sample2.server_error))
         Sample.message) (mkState Sample.sessions []) =
  (Raise Sample2.server_error,
   mkState Sample.sessions [(Typing, Some Sample2.server_error)]).
Proof. reflexivity. Qed.

(** ** [start_command] *)

Lemma start_command_table (env : Env) (interaction : Interaction) (st : State) :
  let uid := interaction_user_id interaction in
  let convs := user_conversations st in
  let convs' := user_conversations (snd (start_command env interaction st)) in
  (forall u, u <> uid -> convs' !! u = convs !! u) /\
  (forall s', convs' !! uid = Some s' ->
     convs !! uid = Some s' \/
     (convs !! uid = None /\ interaction_is_administrator interaction = true /\
      s' = fresh_session env interaction)).
Proof.
  destruct st as [convs tr]. intros uid convs0 convs'. subst convs0.
  cbn [user_conversations] in *.
  set (admin := interaction_is_administrator interaction).
  set (P := fun c : gmap Z Session =>
              (forall u, u <> uid -> c !! u = convs !! u) /\
              (forall s', c !! uid = Some s' ->
                 convs !! uid = Some s' \/
                 (convs !! uid = None /\ admin = true /\ s' = fresh_session env interaction))).
  change (P convs'). subst convs'.
  assert (Hsame : P convs) by (split; auto).
  unfold start_command. fold uid. fold admin.
  destruct admin eqn:Hadmin; cbn [negb]; [|now rewrite perform_eq].
  unfold bind at 1. rewrite has_session_eq.
  destruct (convs !! uid) as [s|] eqn:Hs.
  { rewrite bool_decide_eq_true_2 by eauto. now rewrite perform_eq. }
  rewrite bool_decide_eq_false_2 by (intros [x Hx]; discriminate).
  unfold bind at 1. unfold set_session at 1. cbn [user_conversations trace].
  fold (fresh_session env interaction).
  assert (Hfresh : P (<[uid := fresh_session env interaction]> convs)).
  { split.
    - intros u Hu. now rewrite lookup_insert_ne.
    - intros s'. rewrite lookup_insert_eq. intros [= <-]. right. auto. }
  assert (Hgone : P (delete uid (<[uid := fresh_session env interaction]> convs))).
  { split.
    - intros u Hu. now rewrite lookup_delete_ne, lookup_insert_ne.
    - intros s'. rewrite lookup_delete_eq. discriminate. }
  unfold bind at 1. rewrite perform_eq.
  destruct (oracle env tr _); cbn [outcome snd user_conversations]; [exact Hfresh|].
  unfold try_except, bind at 1. rewrite perform_eq.
  destruct (oracle env _ CreateDM); cbn [outcome].
  - unfold bind. rewrite perform_eq.
    destruct (oracle env _ (FollowupSend _)); cbn [outcome snd user_conversations];
      [exact Hfresh|].
    rewrite has_session_eq, bool_decide_eq_true_2
      by (rewrite lookup_insert_eq; eauto).
    erewrite del_session_eq by apply lookup_insert_eq. exact Hgone.
  - rewrite perform_eq.
    destruct (oracle env _ (DMSend _)); cbn [outcome snd user_conversations];
      [|exact Hfresh].
    unfold bind. rewrite perform_eq.
    destruct (oracle env _ (FollowupSend _)); cbn [outcome snd user_conversations];
      [exact Hfresh|].
    rewrite has_session_eq, bool_decide_eq_true_2
      by (rewrite lookup_insert_eq; eauto).
    erewrite del_session_eq by apply lookup_insert_eq. exact Hgone.
Qed.

(** Whatever the outside world does, [start_command] leaves the sessions of
    the other users as they were; afterwards the invoking user has the
    session they had before, or, if they had none and administer the guild,
    the fresh session of the instruction turn alone, or none.  A user who
    is no administrator never gets one. *)
Theorem start_command_sessions (env : Env) (interaction : Interaction) (st : State) :
  let uid := interaction_user_id interaction in
  let convs := user_conversations st in
  let convs' := user_conversations (snd (run (start_command env interaction) st)) in
  (forall u, u <> uid -> convs' !! u = convs !! u) /\
  (forall s', convs' !! uid = Some s' ->
     convs !! uid = Some s' \/
     (convs !! uid = None /\ interaction_is_administrator interaction = true /\
      s' = fresh_session env interaction)).
Proof. apply start_command_table. Qed.

(** A first [/start] of an administrator, every call returning: the
    session is created with the instruction turn alone and the guild the
    command was invoked in, the invocation is acknowledged, and the
    greeting goes out in a direct message. *)
Theorem start_command_opens_session
    (env : Env) (interaction : Interaction)
    (convs : gmap Z Session) (tr : list event) :
  let uid := interaction_user_id interaction in
  let ack := ResponseSend (started_notice (interaction_guild_name interaction)) in
  interaction_is_administrator interaction = true ->
  convs !! uid = None ->
  oracle env tr ack = None ->
  oracle env (tr ++ [(ack, None)]) CreateDM = None ->
  oracle env ((tr ++ [(ack, None)]) ++ [(CreateDM, None)]) (DMSend greeting) = None ->
  run (start_command env interaction) (mkState convs tr) =
  (Ok tt,
   mkState (<[uid := fresh_session env interaction]> convs)
     (((tr ++ [(ack, None)]) ++ [(CreateDM, None)]) ++ [(DMSend greeting, None)])).
Proof.
  intros uid ack Hadmin Hs Hack Hdm Hsend. unfold run, start_command.
  rewrite Hadmin. cbn [negb]. fold uid.
  unfold bind at 1. rewrite has_session_eq, Hs.
  rewrite bool_decide_eq_false_2 by (intros [x Hx]; discriminate).
  unfold bind at 1. unfold set_session at 1. cbn [user_conversations trace].
  unfold bind at 1. fold ack. rewrite perform_eq, Hack. cbn [outcome].
  unfold try_except, bind. rewrite perform_eq, Hdm. cbn [outcome].
  rewrite perform_eq, Hsend. reflexivity.
Qed.

Lemma start_command_opens_session_witness :
  let ack := ResponseSend (started_notice "Old") in
  run (start_command (Sample.world "" Sample.quiet) Sample2.newcomer)
    (mkState Sample.sessions []) =
  (Ok tt,
   mkState (<[43%Z := fresh_session (Sample.world "" Sample.quiet) Sample2.newcomer]>
              Sample.sessions)
     ((([] ++ [(ack, None)]) ++ [(CreateDM, None)]) ++ [(DMSend greeting, None)])).
Proof.
  apply (start_command_opens_session (Sample.world "" Sample.quiet) Sample2.newcomer
           Sample.sessions []); reflexivity.
Defined.

(** When the greeting cannot be delivered the user is told in a
    follow-up, with the text for closed direct messages if the failure is a
    [Forbidden] and the general text otherwise.  If the follow-up goes
    out, the session just created is taken down again and the table is what
    it was before the command; if the follow-up raises too, the deletion
    is not reached: the fresh session stays and the exception leaves the
    command. *)
Theorem start_command_undone_when_dm_fails
    (env : Env) (interaction : Interaction)
    (convs : gmap Z Session) (tr : list event) (e : exn) :
  let uid := interaction_user_id interaction in
  let ack := ResponseSend (started_notice (interaction_guild_name interaction)) in
  let notice := if is_Forbidden e then dm_forbidden_notice else start_failed_notice in
  let tr3 := ((tr ++ [(ack, None)]) ++ [(CreateDM, None)]) ++ [(DMSend greeting, Some e)] in
  let o := oracle env tr3 (FollowupSend notice) in
  interaction_is_administrator interaction = true ->
  convs !! uid = None ->
  oracle env tr ack = None ->
  oracle env (tr ++ [(ack, None)]) CreateDM = None ->
  oracle env ((tr ++ [(ack, None)]) ++ [(CreateDM, None)]) (DMSend greeting) = Some e ->
  run (start_command env interaction) (mkState convs tr) =
  (outcome o,
   mkState (match o with
            | None => convs
            | Some _ => <[uid := fresh_session env interaction]> convs
            end)
     (tr3 ++ [(FollowupSend notice, o)])).
Proof.
  intros uid ack notice tr3 o Hadmin Hs Hack Hdm Hsend.
  unfold run, start_command. rewrite Hadmin. cbn [negb]. fold uid.
  unfold bind at 1. rewrite has_session_eq, Hs.
  rewrite bool_decide_eq_false_2 by (intros [x Hx]; discriminate).
  unfold bind at 1. unfold set_session at 1. cbn [user_conversations trace].
  unfold bind at 1. fold ack. rewrite perform_eq, Hack. cbn [outcome].
  unfold try_except, bind. rewrite perform_eq, Hdm. cbn [outcome].
  rewrite perform_eq, Hsend. cbn [outcome]. fold notice. fold tr3.
  rewrite perform_eq. fold o. destruct o as [e'|]; cbn [outcome]; [reflexivity|].
  rewrite has_session_eq, bool_decide_eq_true_2
    by (rewrite lookup_insert_eq; eauto).
  erewrite del_session_eq by apply lookup_insert_eq.
  now rewrite delete_insert_id.
Qed.

Lemma start_command_undone_when_dm_fails_witness :
  let env := Sample.world "" (Sample.failing Sample2.is_dm_send Sample.missing_permissions) in
  let ack := ResponseSend (started_notice "Old") in
  run (start_command env Sample2.newcomer) (mkState Sample.sessions []) =
  (Ok tt,
   mkState Sample.sessions
     (((([] ++ [(ack, None)]) ++ [(CreateDM, None)])
         ++ [(DMSend greeting, Some Sample.missing_permissions)])
        ++ [(FollowupSend dm_forbidden_notice, None)])).
Proof.
  apply (start_command_undone_when_dm_fails
           (Sample.world "" (Sample.failing Sample2.is_dm_send Sample.missing_permissions))
           Sample2.newcomer Sample.sessions [] Sample.missing_permissions);
    reflexivity.
Defined.

(** The same start when the follow-up is refused as well: the command
    raises and the fresh session is left in the table. *)
Example follow_up_refused_run :
  let env := Sample.world ""
               (Sample.failing (fun c => Sample2.is_dm_send c || Sample2.is_followup c)
                  Sample.missing_permissions) in
  let r := run (start_command env Sample2.newcomer) (mkState Sample.sessions []) in
  fst r = Raise Sample.missing_permissions /\
  user_conversations (snd r) !! 43%Z = Some (fresh_session env Sample2.newcomer) /\
  calls (trace (snd r)) =
    [ResponseSend (started_notice "Old"); CreateDM; DMSend greeting;
     FollowupSend dm_forbidden_notice].
Proof. repeat split; reflexivity. Qed.

(** The instruction turn stays first: if every history in the table
    starts with it, so does every history after [on_message] and after
    [start_command], whatever the outside world does. *)
Theorem histories_open_with_prompt (env : Env) (st : State) :
  opens_with_prompt env (user_conversations st) ->
  (forall message,
     opens_with_prompt env (user_conversations (snd (run (on_message env message) st)))) /\
  (forall interaction,
     opens_with_prompt env
       (user_conversations (snd (run (start_command env interaction) st)))).
Proof.
  intros Hinv. split.
  - intros message uid s' H.
    destruct (on_message_grows env message st) as [Hother Hown].
    destruct (decide (uid = author_id message)) as [->|Hne].
    + destruct (Hown s' H) as (s0 & H0 & _ & added & Hadd).
      destruct (Hinv _ _ H0) as [rest Hrest].
      exists (rest ++ added). now rewrite Hadd, Hrest.
    + unfold run in H. rewrite (Hother uid Hne) in H. exact (Hinv _ _ H).
  - intros interaction uid s' H.
    destruct (start_command_table env interaction st) as [Hother Hown].
    destruct (decide (uid = interaction_user_id interaction)) as [->|Hne].
    + destruct (Hown s' H) as [H0 | (_ & _ & ->)]; [exact (Hinv _ _ H0)|].
      now exists [].
    + unfold run in H. rewrite (Hother uid Hne) in H. exact (Hinv _ _ H).
Qed.

Lemma histories_open_with_prompt_witness :
  let env := Sample.world "What should the server be called?" Sample.quiet in
  (forall message,
     opens_with_prompt env
       (user_conversations (snd (run (on_message env message) (mkState Sample.sessions []))))) /\
  (forall interaction,
     opens_with_prompt env
       (user_conversations
          (snd (run (start_command env interaction) (mkState Sample.sessions []))))).
Proof.
  apply (histories_open_with_prompt
           (Sample.world "What should the server be called?" Sample.quiet)
           (mkState Sample.sessions [])).
  intros uid s H. cbn [user_conversations] in H. unfold Sample.sessions in H.
  apply lookup_singleton_Some in H as [_ <-]. now exists [].
Defined.

(** ** More on the extraction *)

Section CutFacts.

Lemma starts_with_grows (p x y : string) :
  Str.starts_with p x = true -> Str.starts_with p (x +:+ y) = true.
Proof.
  revert x. induction p as [|a p IH]; intros x H; [reflexivity|].
  destruct x as [|b x]; cbn [Str.starts_with] in H; [discriminate|].
  rewrite append_cons. cbn [Str.starts_with].
  destruct (Ascii.eqb a b); [now apply IH | discriminate].
Qed.

Lemma contains_grows (sep a y : string) :
  Str.contains sep a = true -> Str.contains sep (a +:+ y) = true.
Proof.
  induction a as [|c a IH]; intros H.
  - cbn [Str.contains] in H.
    destruct (Str.starts_with sep "") eqn:E; [|discriminate].
    destruct sep; [|discriminate]. now destruct y.
  - cbn [Str.contains] in H. rewrite append_cons. cbn [Str.contains].
    destruct (Str.starts_with sep (String c a)) eqn:E.
    + rewrite <- append_cons, (starts_with_grows _ _ y E). reflexivity.
    + rewrite (IH H). now destruct (Str.starts_with sep (String c (a +:+ y))).
Qed.

Lemma cut_present (sep s : string) :
  Str.contains sep s = true -> exists a b, Str.cut sep s = Some (a, b).
Proof.
  induction s as [|c s IH]; intros H; cbn [Str.contains Str.cut] in *.
  - destruct (Str.starts_with sep ""); [eauto | discriminate].
  - destruct (Str.starts_with sep (String c s)); [eauto|].
    destruct (IH H) as (a & b & ->). eauto.
Qed.

(** A cut splits the text around the separator. *)
Lemma cut_parts (sep s a b : string) :
  Str.cut sep s = Some (a, b) -> s = a +:+ sep +:+ b.
Proof.
  revert a. induction s as [|c s IH]; intros a H; cbn [Str.cut] in H.
  - destruct sep; cbn in H; [|discriminate]. now injection H as <- <-.
  - destruct (Str.starts_with sep (String c s)) eqn:E.
    + injection H as <- <-. rewrite append_nil. clear IH.
      revert c s E. induction sep as [|x sep IH]; intros c s E; [reflexivity|].
      cbn [Str.starts_with] in E. destruct (Ascii.eqb_spec x c) as [->|]; [|discriminate].
      rewrite append_cons. cbn [String.length Str.drop]. f_equal.
      destruct s as [|d s]; [destruct sep; [reflexivity | discriminate]|].
      now apply IH.
    + destruct (Str.cut sep s) as [[a' b']|]; [|discriminate].
      injection H as <- <-. rewrite append_cons. f_equal. now apply IH.
Qed.

(** The piece before the first occurrence holds no occurrence. *)
Lemma cut_clean (x : ascii) (sep s a b : string) :
  Str.cut (String x sep) s = Some (a, b) -> Str.contains (String x sep) a = false.
Proof.
  revert a. induction s as [|c s IH]; intros a H; cbn [Str.cut] in H.
  - discriminate.
  - destruct (Str.starts_with (String x sep) (String c s)) eqn:E.
    + now injection H as <- <-.
    + destruct (Str.cut (String x sep) s) as [[a' b']|] eqn:Ec; [|discriminate].
      injection H as <- <-. cbn [Str.contains]. rewrite (IH a' eq_refl).
      destruct (Str.starts_with (String x sep) (String c a')) eqn:E'; [|reflexivity].
      apply cut_parts in Ec. subst s.
      rewrite <- append_cons, (starts_with_grows _ _ _ E') in E. discriminate.
Qed.

Lemma before_clean (x : ascii) (sep s : string) :
  Str.contains (String x sep) (before (String x sep) s) = false.
Proof.
  unfold before. destruct (Str.cut (String x sep) s) as [[a b]|] eqn:E.
  - exact (cut_clean _ _ _ _ _ E).
  - destruct (Str.contains (String x sep) s) eqn:Ec; [|reflexivity].
    destruct (cut_present _ _ Ec) as (a & b & Hc). congruence.
Qed.

(** What stands before a cut holds no separator the whole text lacks. *)
Lemma before_keeps_clean (sep' sep s : string) :
  Str.contains sep' s = false -> Str.contains sep' (before sep s) = false.
Proof.
  intros H. unfold before. destruct (Str.cut sep s) as [[a b]|] eqn:E; [|exact H].
  apply cut_parts in E. subst s.
  destruct (Str.contains sep' a) eqn:Ea; [|reflexivity].
  now rewrite (contains_grows _ _ _ Ea) in H.
Qed.

End CutFacts.

(** The extraction fails in one way only, with an [IndexError], and
    exactly when the reply holds no opening delimiter, the marker followed
    by a newline; a missing closing fence is no failure. *)
Theorem extraction_fails_without_opening (reply : string) :
  match extract_json_string reply with
  | Ok _ => Str.contains open_fence reply = true
  | Raise e => e = index_error /\ Str.contains open_fence reply = false
  end.
Proof.
  rewrite extract_json_string_cut.
  destruct (Str.cut open_fence reply) as [[a b]|] eqn:E.
  - apply cut_parts in E. subst reply. apply contains_later, contains_here.
  - split; [reflexivity|].
    destruct (Str.contains open_fence reply) eqn:Ec; [|reflexivity].
    destruct (cut_present _ _ Ec) as (a & b & Hc). congruence.
Qed.

(** The text handed to the decoder holds neither an opening delimiter nor
    a closing fence. *)
Theorem extracted_text_has_no_fence (reply text : string) :
  extract_json_string reply = Ok text ->
  Str.contains open_fence text = false /\ Str.contains close_fence text = false.
Proof.
  rewrite extract_json_string_cut.
  destruct (Str.cut open_fence reply) as [[a b]|]; [|discriminate].
  intros [= <-]. split.
  - apply before_keeps_clean.
    change open_fence with (String "`" ("``json" +:+ nl)). apply before_clean.
  - change close_fence with (String (ascii_of_nat 10) "```"). apply before_clean.
Qed.

Lemma extracted_text_has_no_fence_witness :
  Str.contains open_fence "{}" = false /\ Str.contains close_fence "{}" = false.
Proof.
  apply (extracted_text_has_no_fence (open_fence +:+ "{}" +:+ open_fence +:+ "```") "{}").
  reflexivity.
Defined.

(** A block that is never closed is taken to the end of the reply. *)
Theorem unclosed_block_taken_to_the_end (prelude rest : string) :
  Str.contains open_fence (prelude +:+ fence_marker) = false ->
  Str.contains open_fence rest = false ->
  Str.contains close_fence rest = false ->
  extract_json_string (prelude +:+ open_fence +:+ rest) = Ok rest.
Proof.
  intros H1 H2 H3. rewrite extract_json_string_cut.
  change open_fence with (fence_marker +:+ nl) in *. unfold nl at 1 2.
  rewrite (cut_first fence_marker _ prelude _ H1).
  unfold before. now rewrite (cut_absent _ _ H2), (cut_absent _ _ H3).
Qed.

Lemma unclosed_block_taken_to_the_end_witness :
  extract_json_string ("Here you go: " +:+ open_fence +:+ "{} and that is all") =
  Ok "{} and that is all".
Proof.
  apply (unclosed_block_taken_to_the_end "Here you go: " "{} and that is all");
    reflexivity.
Defined.

(** ** The end of the reconfiguration *)

Lemma bind_ok_inv {A B} (m : M A) (k : A -> M B) (st st1 : State) (b : B) :
  bind m k st = (Ok b, st1) ->
  exists a st0, m st = (Ok a, st0) /\ k a st0 = (Ok b, st1).
Proof.
  unfold bind. destruct (m st) as [[a|e] st0]; [eauto | discriminate].
Qed.

Lemma reconfigure_ok_ends (env : Env) (guild : Guild) (data : json) (st st1 : State) :
  reconfigure env guild data st = (Ok tt, st1) ->
  exists earlier, trace st1 = earlier ++ [(UserSend (success_message guild), None)].
Proof.
  unfold reconfigure. intros H.
  do 6 (apply bind_ok_inv in H as (? & ? & _ & H)).
  match type of H with perform _ _ ?s = _ => destruct s as [convs tr] end.
  rewrite perform_eq in H.
  destruct (oracle env tr _); [discriminate|]. injection H as <-. now exists tr.
Qed.

(** The procedure always ends by writing to the user, and it returns or
    raises as that last message does.  When the body of the outer [try]
    returned, the last call is the success message, which went out, and
    nothing follows it.  When the body raised [e], whatever it had done, the
    notice for [e] is sent after it: the text Discord gave for an HTTP
    exception, the critical-error text for any other. *)
Theorem apply_ends_with_notice (env : Env) (guild : Guild) (data : json) (st : State) :
  let r := run (create_server_from_json env guild data) st in
  match reconfigure env guild data st with
  | (Ok _, st1) =>
      r = (Ok tt, st1) /\
      exists earlier, trace st1 = earlier ++ [(UserSend (success_message guild), None)]
  | (Raise e, st1) =>
      let text := if is_HTTPException e then api_error_notice (exn_text e)
                  else critical_notice in
      let o := oracle env (trace st1) (UserSend text) in
      r = (outcome o,
           mkState (user_conversations st1) (trace st1 ++ [(UserSend text, o)]))
  end.
Proof.
  intros r. subst r. unfold run.
  destruct (reconfigure env guild data st) as [[[]|e] st1] eqn:E.
  - split; [|exact (reconfigure_ok_ends _ _ _ _ _ E)].
    unfold create_server_from_json, try_except. now rewrite E.
  - rewrite (create_server_raise _ _ _ _ _ _ E). destruct st1 as [convs tr].
    now rewrite perform_eq.
Qed.

(** A run in which a role request fails and is passed over ends with the
    success message; a run in which a channel deletion fails ends with the
    text Discord gave. *)
Example notices_of_two_runs :
  calls (trace (snd (run (create_server_from_json
                            (Sample.world "" (Sample.failing
                                                (Sample2.is_create_role_named "Admin")
                                                Sample2.server_error))
                            Sample.guild (JObject [("roles", JArray Sample2.role_entries)]))
                       (mkState Sample.sessions [])))) =
    [GuildEdit (JString "Old"); FetchChannels;
     ChannelDelete Sample.general; ChannelDelete Sample.lounge; RoleDelete Sample.mods;
     CreateRole (JString "Admin"); CreateRole (JString "Member");
     UserSend (success_message Sample.guild)] /\
  calls (trace (snd (run (create_server_from_json
                            (Sample.world "" (Sample.failing (Sample.is_delete_of 2)
                                                Sample2.server_error))
                            Sample.guild (JObject [("roles", JArray Sample2.role_entries)]))
                       (mkState Sample.sessions [])))) =
    [GuildEdit (JString "Old"); FetchChannels;
     ChannelDelete Sample.general; ChannelDelete Sample.lounge;
     UserSend (api_error_notice "Internal Server Error")].
Proof. split; reflexivity. Qed.



(** ** Wipe first, build after *)

Section Phases.
Variable env : Env.
Variable guild : Guild.

(** Events of the wipe: nothing is created.  Events of the build: nothing
    is deleted. *)
Local Abbreviation W := (fun ev : event => is_create (fst ev) = false).
Local Abbreviation B := (fun ev : event => is_delete (fst ev) = false).

Lemma adds_then_first {A} (m : M A) : adds W m -> adds_then W B m.
Proof.
  intros H st. destruct (H st) as (evs & E & HP).
  exists evs, []. rewrite app_nil_r. auto.
Qed.

Lemma adds_then_second {A} (m : M A) : adds B m -> adds_then W B m.
Proof.
  intros H st. destruct (H st) as (evs & E & HP). exists [], evs. auto.
Qed.

Lemma adds_then_bind {A C} (m : M A) (k : A -> M C) :
  adds W m -> (forall a, adds_then W B (k a)) -> adds_then W B (bind m k).
Proof.
  intros Hm Hk st. unfold bind. destruct (Hm st) as (evs & E & HP).
  destruct (m st) as [[a|e] st']; cbn [snd] in E.
  - destruct (Hk a st') as (x & y & E' & Hx & Hy).
    exists (evs ++ x), y. rewrite E', E, <- !app_assoc.
    split; [reflexivity|]. split; [now apply Forall_app | exact Hy].
  - exists evs, []. rewrite app_nil_r. auto.
Qed.

Lemma adds_then_try_except {A} (m : M A) (handler : exn -> option (M A)) :
  adds_then W B m -> (forall e h, handler e = Some h -> adds B h) ->
  adds_then W B (try_except m handler).
Proof.
  intros Hm Hh st. unfold try_except. destruct (Hm st) as (x & y & E & Hx & Hy).
  destruct (m st) as [[a|e] st']; cbn [snd] in E; [now exists x, y|].
  destruct (handler e) as [h|] eqn:Eh; [|now exists x, y].
  destruct (Hh e h Eh st') as (z & E' & Hz).
  exists x, (y ++ z). rewrite E', E, <- !app_assoc.
  split; [reflexivity|]. split; [exact Hx | now apply Forall_app].
Qed.

Lemma build_roles_adds (role_info : json) : adds B (create_role_entry env role_info).
Proof.
  unfold create_role_entry. apply adds_bind; [apply adds_lift|]. intros name.
  destruct (_ && _); [|apply adds_ret].
  apply adds_try_except; [now apply adds_perform|].
  intros e h [= <-]. apply adds_ret.
Qed.

Lemma build_channel_adds (cat : nat) (channel_info : json) :
  adds B (create_channel_entry env cat channel_info).
Proof.
  unfold create_channel_entry.
  do 3 (apply adds_bind; [apply adds_lift|]; intros ?).
  destruct (negb _); [apply adds_ret|].
  apply adds_try_except.
  - repeat match goal with
           | |- adds _ (if ?b then _ else _) => destruct b
           end; first [now apply adds_perform | apply adds_ret].
  - intros e h [= <-]. apply adds_ret.
Qed.

Lemma build_category_adds (category_info : json) :
  adds B (create_category_entry env category_info).
Proof.
  unfold create_category_entry.
  apply adds_bind; [apply adds_lift|]. intros name.
  destruct (negb _); [apply adds_ret|].
  apply adds_try_except.
  - apply adds_bind; [now apply adds_create_category|]. intros cat.
    apply adds_bind; [apply adds_lift|]. intros has.
    destruct has; [|apply adds_ret].
    do 2 (apply adds_bind; [apply adds_lift|]; intros ?).
    apply adds_for_each. intros x _. apply build_channel_adds.
  - intros e h [= <-]. apply adds_ret.
Qed.

Lemma reconfigure_phases (data : json) : adds_then W B (reconfigure env guild data).
Proof.
  unfold reconfigure.
  apply adds_then_bind; [apply adds_lift|]. intros name.
  apply adds_then_bind; [now apply adds_perform|]. intros _.
  apply adds_then_bind.
  { apply adds_bind.
    - unfold fetch_channels. apply adds_bind; [now apply adds_perform|].
      intros _. apply adds_ret.
    - intros channels. apply adds_for_each. intros c _. now apply adds_perform. }
  intros _. apply adds_then_bind.
  { apply adds_for_each. intros r _. unfold wipe_role.
    destruct (_ || _); [apply adds_ret|].
    apply adds_try_except; [now apply adds_perform|].
    intros e h. destruct (is_Forbidden e); [|discriminate].
    intros [= <-]. apply adds_ret. }
  intros _. apply adds_then_second.
  apply adds_bind.
  { apply adds_bind; [apply adds_lift|]. intros has.
    destruct has; [|apply adds_ret].
    do 2 (apply adds_bind; [apply adds_lift|]; intros ?).
    apply adds_for_each. intros x _. apply build_roles_adds. }
  intros _. apply adds_bind.
  { apply adds_bind; [apply adds_lift|]. intros has.
    destruct has; [|apply adds_ret].
    do 2 (apply adds_bind; [apply adds_lift|]; intros ?).
    apply adds_for_each. intros x _. apply build_category_adds. }
  intros _. now apply adds_perform.
Qed.

Lemma create_server_phases (data : json) :
  adds_then W B (create_server_from_json env guild data).
Proof.
  unfold create_server_from_json. apply adds_then_try_except.
  - apply reconfigure_phases.
  - intros e h. destruct (is_HTTPException e); intros [= <-]; now apply adds_perform.
Qed.

End Phases.

(** In every run, for every plan and every behaviour of the outside world,
    the deletions all come before the creations: the calls of the procedure
    split into a first part that creates nothing and a second part that
    deletes nothing.  What the procedure has created it never deletes. *)
Theorem wipe_precedes_build (env : Env) (guild : Guild) (data : json) (st : State) :
  exists wipe build,
    trace (snd (run (create_server_from_json env guild data) st)) =
      trace st ++ wipe ++ build /\
    Forall (fun ev => is_create (fst ev) = false) wipe /\
    Forall (fun ev => is_delete (fst ev) = false) build.
Proof. apply create_server_phases. Qed.

(** ** The loops of the reconfiguration *)

Section Loops.
Variable env : Env.

Lemma calls_app (a b : list event) : calls (a ++ b) = calls a ++ calls b.
Proof. apply map_app. Qed.

(** One role of the wipe, when a refused deletion is always a
    [Forbidden]. *)
Lemma wipe_role_tolerant (r : Role) (convs : gmap Z Session) (tr : list event) :
  (forall tr' r' e, oracle env tr' (RoleDelete r') = Some e -> is_Forbidden e = true) ->
  exists evs,
    wipe_role env r (mkState convs tr) = (Ok tt, mkState convs (tr ++ evs)) /\
    calls evs = if deletable r then [RoleDelete r] else [].
Proof.
  intros Hf. unfold wipe_role, deletable.
  destruct (role_is_default r || role_is_integration r); cbn [negb].
  - exists []. now rewrite app_nil_r.
  - unfold try_except. rewrite perform_eq.
    exists [(RoleDelete r, oracle env tr (RoleDelete r))].
    destruct (oracle env tr (RoleDelete r)) as [e|] eqn:E; cbn [outcome]; [|auto].
    now rewrite (Hf _ _ _ E).
Qed.

(** One entry of the roles of the plan. *)
Lemma create_role_entry_calls (x : json) (convs : gmap Z Session) (tr : list event) :
  is_object x = true ->
  exists evs,
    create_role_entry env x (mkState convs tr) = (Ok tt, mkState convs (tr ++ evs)) /\
    calls evs = match wanted_role x with Some n => [CreateRole n] | None => [] end.
Proof.
  destruct x as [| | | | | |kvs]; try discriminate. intros _.
  unfold create_role_entry, bind, lift, wanted_role. cbn [Py.get].
  assert (Hskip : exists evs,
            ret tt (mkState convs tr) = (Ok tt, mkState convs (tr ++ evs)) /\
            calls evs = []) by (exists []; now rewrite app_nil_r).
  destruct (Py.dict_get "name" kvs) as [n|]; [|exact Hskip].
  destruct (Py.truthy n && negb (Py.eq_str n "@everyone")); [|exact Hskip].
  unfold try_except. rewrite perform_eq.
  exists [(CreateRole n, oracle env tr (CreateRole n))].
  now destruct (oracle env tr (CreateRole n)).
Qed.

Lemma create_role_entry_bad (x : json) (st : State) :
  is_object x = false ->
  create_role_entry env x st = (Raise attribute_error, st).
Proof. destruct x; try discriminate; reflexivity. Qed.

(** One dispatchable entry of the channels of a category. *)
Lemma create_channel_entry_calls (cat : nat) (x : json)
    (convs : gmap Z Session) (tr : list event) :
  dispatchable x = true ->
  exists evs,
    create_channel_entry env cat x (mkState convs tr) = (Ok tt, mkState convs (tr ++ evs)) /\
    calls evs = match channel_call cat x with Some c => [c] | None => [] end.
Proof.
  destruct x as [| | | | | |kvs]; try discriminate. intros Hd.
  assert (Hskip : exists evs,
            (Ok tt, mkState convs tr) = (Ok tt, mkState convs (tr ++ evs)) /\
            calls evs = []) by (exists []; now rewrite app_nil_r).
  assert (Hcall : forall c, exists evs,
            try_except (perform env c) (fun _ => Some (ret tt)) (mkState convs tr)
              = (Ok tt, mkState convs (tr ++ evs)) /\ calls evs = [c]).
  { intros c. rewrite guarded_call. now exists [(c, oracle env tr c)]. }
  unfold create_channel_entry, bind, lift, channel_call, dispatchable in *.
  cbn [Py.get].
  destruct (Py.dict_get "name" kvs) as [n|];
    destruct (Py.dict_get "type" kvs) as [[| | | |k| |]|]; try discriminate;
    cbn [Py.lower Py.truthy negb Py.eq_str]; try exact Hskip.
  - destruct (Py.truthy n); cbn [negb]; [|exact Hskip].
    destruct (String.eqb (Str.lower k) "text"); [apply Hcall|].
    destruct (String.eqb (Str.lower k) "voice"); [apply Hcall|].
    unfold try_except, ret. exact Hskip.
  - destruct (Py.truthy n); cbn [negb]; [|exact Hskip]. apply Hcall.
Qed.

Lemma create_channel_entry_bad (cat : nat) (x : json) (st : State) :
  dispatchable x = false ->
  create_channel_entry env cat x st = (Raise attribute_error, st).
Proof.
  destruct x as [| | | | | |kvs]; try reflexivity.
  unfold dispatchable, create_channel_entry, bind, lift. cbn [Py.get].
  destruct (Py.dict_get "name" kvs);
    destruct (Py.dict_get "type" kvs) as [[]|]; try discriminate; reflexivity.
Qed.

(** A loop whose body returns on every item of the list, adding the calls
    [f] says. *)
Lemma for_each_calls {A} (body : A -> M unit) (f : A -> list call) (ok : A -> Prop)
    (xs : list A) (convs : gmap Z Session) (tr : list event) :
  (forall x tr', ok x -> exists evs,
       body x (mkState convs tr') = (Ok tt, mkState convs (tr' ++ evs)) /\
       calls evs = f x) ->
  Forall ok xs ->
  exists evs,
    for_each xs body (mkState convs tr) = (Ok tt, mkState convs (tr ++ evs)) /\
    calls evs = concat (map f xs).
Proof.
  intros Hbody Hall. revert tr.
  induction Hall as [|x xs Hx Hxs IH]; intros tr; cbn [for_each map concat].
  - exists []. now rewrite app_nil_r.
  - destruct (Hbody x tr Hx) as (e1 & E1 & C1).
    destruct (IH (tr ++ e1)) as (e2 & E2 & C2).
    exists (e1 ++ e2). unfold bind. rewrite E1, E2, app_assoc, calls_app, C1, C2.
    auto.
Qed.

(** The same loop meeting an item on which the body raises without a
    call. *)
Lemma for_each_stops {A} (body : A -> M unit) (f : A -> list call) (ok : A -> Prop)
    (done rest : list A) (bad : A) (e : exn) (convs : gmap Z Session) (tr : list event) :
  (forall x tr', ok x -> exists evs,
       body x (mkState convs tr') = (Ok tt, mkState convs (tr' ++ evs)) /\
       calls evs = f x) ->
  (forall st, body bad st = (Raise e, st)) ->
  Forall ok done ->
  exists evs,
    for_each (done ++ bad :: rest) body (mkState convs tr) =
      (Raise e, mkState convs (tr ++ evs)) /\
    calls evs = concat (map f done).
Proof.
  intros Hbody Hbad Hall. revert tr.
  induction Hall as [|x xs Hx Hxs IH]; intros tr; cbn [app for_each map concat].
  - exists []. unfold bind. now rewrite Hbad, app_nil_r.
  - destruct (Hbody x tr Hx) as (e1 & E1 & C1).
    destruct (IH (tr ++ e1)) as (e2 & E2 & C2).
    exists (e1 ++ e2). unfold bind. rewrite E1. unfold bind in E2. rewrite E2.
    now rewrite app_assoc, calls_app, C1, C2.
Qed.

Lemma concat_singletons {A B} (f : A -> option B) (xs : list A) :
  concat (map (fun x => match f x with Some c => [c] | None => [] end) xs) = omap f xs.
Proof.
  induction xs as [|x xs IH]; [reflexivity|]. cbn [map concat omap list_omap].
  rewrite IH. now destruct (f x).
Qed.

Lemma concat_filtered {A B} (p : A -> bool) (g : A -> B) (xs : list A) :
  concat (map (fun x => if p x then [g x] else []) xs) = map g (List.filter p xs).
Proof.
  induction xs as [|x xs IH]; [reflexivity|]. cbn [map concat List.filter].
  rewrite IH. now destruct (p x).
Qed.

End Loops.

(** The role wipe goes through the whole list when refusals are
    [Forbidden]: every role that is neither the default role nor managed by
    an integration is tried once, in order, whether the roles before it
    could be deleted or not. *)
Theorem role_wipe_tolerates_forbidden
    (env : Env) (roles : list Role) (convs : gmap Z Session) (tr : list event) :
  (forall tr' r e, oracle env tr' (RoleDelete r) = Some e -> is_Forbidden e = true) ->
  exists evs,
    run (for_each roles (wipe_role env)) (mkState convs tr) =
      (Ok tt, mkState convs (tr ++ evs)) /\
    calls evs = map RoleDelete (List.filter deletable roles).
Proof.
  intros Hf. unfold run.
  destruct (for_each_calls (wipe_role env)
              (fun r => if deletable r then [RoleDelete r] else [])
              (fun _ => True) roles convs tr) as (evs & E & C).
  - intros r tr' _. now apply wipe_role_tolerant.
  - now apply Forall_forall.
  - exists evs. split; [exact E|]. now rewrite C, concat_filtered.
Qed.

Lemma role_wipe_tolerates_forbidden_witness :
  exists evs,
    run (for_each (guild_roles Sample2.guild)
           (wipe_role (Sample.world "" (Sample.failing Sample2.is_role_delete
                                           Sample.missing_permissions))))
      (mkState Sample.sessions []) = (Ok tt, mkState Sample.sessions ([] ++ evs)) /\
    calls evs = map RoleDelete (List.filter deletable (guild_roles Sample2.guild)).
Proof.
  apply (role_wipe_tolerates_forbidden
           (Sample.world "" (Sample.failing Sample2.is_role_delete Sample.missing_permissions))
           (guild_roles Sample2.guild) Sample.sessions []).
  intros tr' r e. cbn. intros [= <-]. reflexivity.
Defined.

(** Role creation is item by item: when the entries are objects, a role is
    requested for every entry with a non-empty name other than
    [@everyone], in order, whatever happens to the requests before it, and
    the loop returns. *)
Theorem role_creation_is_independent
    (env : Env) (items : list json) (convs : gmap Z Session) (tr : list event) :
  Forall (fun x => is_object x = true) items ->
  exists evs,
    run (for_each items (create_role_entry env)) (mkState convs tr) =
      (Ok tt, mkState convs (tr ++ evs)) /\
    calls evs = role_calls items.
Proof.
  intros Hall. unfold run.
  destruct (for_each_calls (create_role_entry env)
              (fun x => match CreateRole <$> wanted_role x with Some c => [c] | None => [] end)
              (fun x => is_object x = true) items convs tr) as (evs & E & C).
  - intros x tr' Hx. destruct (create_role_entry_calls env x convs tr' Hx) as (evs & E & C).
    exists evs. split; [exact E|]. rewrite C. now destruct (wanted_role x).
  - exact Hall.
  - exists evs. split; [exact E|]. rewrite C. apply concat_singletons.
Qed.

(** An entry of the roles that is no object, a bare name for one, ends
    the loop with an [AttributeError]: the entries before it got their
    requests, the entries after it get none. *)
Theorem bad_role_entry_stops_creation
    (env : Env) (done rest : list json) (bad : json)
    (convs : gmap Z Session) (tr : list event) :
  Forall (fun x => is_object x = true) done ->
  is_object bad = false ->
  exists evs,
    run (for_each (done ++ bad :: rest) (create_role_entry env)) (mkState convs tr) =
      (Raise attribute_error, mkState convs (tr ++ evs)) /\
    calls evs = role_calls done.
Proof.
  intros Hall Hbad. unfold run.
  destruct (for_each_stops (create_role_entry env)
              (fun x => match CreateRole <$> wanted_role x with Some c => [c] | None => [] end)
              (fun x => is_object x = true) done rest bad attribute_error convs tr)
    as (evs & E & C).
  - intros x tr' Hx. destruct (create_role_entry_calls env x convs tr' Hx) as (evs & E & C).
    exists evs. split; [exact E|]. rewrite C. now destruct (wanted_role x).
  - intros st. now apply create_role_entry_bad.
  - exact Hall.
  - exists evs. split; [exact E|]. rewrite C. apply concat_singletons.
Qed.

(** Channel creation is item by item as well: for dispatchable entries the
    loop requests the channel each entry calls for, in order, whatever
    happens to the requests before it, and returns. *)
Theorem channel_creation_is_independent
    (env : Env) (cat : nat) (items : list json)
    (convs : gmap Z Session) (tr : list event) :
  Forall (fun x => dispatchable x = true) items ->
  exists evs,
    run (for_each items (create_channel_entry env cat)) (mkState convs tr) =
      (Ok tt, mkState convs (tr ++ evs)) /\
    calls evs = omap (channel_call cat) items.
Proof.
  intros Hall. unfold run.
  destruct (for_each_calls (create_channel_entry env cat)
              (fun x => match channel_call cat x with Some c => [c] | None => [] end)
              (fun x => dispatchable x = true) items convs tr) as (evs & E & C).
  - intros x tr' Hx. now apply create_channel_entry_calls.
  - exact Hall.
  - exists evs. split; [exact E|]. rewrite C. apply concat_singletons.
Qed.

Lemma role_creation_is_independent_witness :
  exists evs,
    run (for_each Sample2.role_entries
           (create_role_entry
              (Sample.world "" (Sample.failing (Sample2.is_create_role_named "Admin")
                                   Sample2.server_error))))
      (mkState Sample.sessions []) = (Ok tt, mkState Sample.sessions ([] ++ evs)) /\
    calls evs = role_calls Sample2.role_entries.
Proof.
  apply (role_creation_is_independent
           (Sample.world "" (Sample.failing (Sample2.is_create_role_named "Admin")
                                Sample2.server_error))
           Sample2.role_entries Sample.sessions []).
  repeat constructor.
Defined.

(** In that run the request for [Admin] fails, the reserved name is
    passed over, and [Member] is requested all the same. *)
Example role_creation_run :
  trace (snd (run (for_each Sample2.role_entries
                     (create_role_entry
                        (Sample.world "" (Sample.failing (Sample2.is_create_role_named "Admin")
                                             Sample2.server_error))))
                (mkState Sample.sessions []))) =
  [(CreateRole (JString "Admin"), Some Sample2.server_error);
   (CreateRole (JString "Member"), None)].
Proof. reflexivity. Qed.

Lemma bad_role_entry_stops_creation_witness :
  exists evs,
    run (for_each ([JObject [("name", JString "Admin")]] ++ JString "Member" :: [])
           (create_role_entry (Sample.world "" Sample.quiet)))
      (mkState Sample.sessions []) =
      (Raise attribute_error, mkState Sample.sessions ([] ++ evs)) /\
    calls evs = role_calls [JObject [("name", JString "Admin")]].
Proof.
  apply (bad_role_entry_stops_creation (Sample.world "" Sample.quiet)
           [JObject [("name", JString "Admin")]] [] (JString "Member") Sample.sessions []).
  - repeat constructor.
  - reflexivity.
Defined.

(** The whole procedure on a plan whose roles are bare names: the guild is
    wiped, no role and no category is made, and the user gets the
    critical-error notice. *)
Example bare_role_names_run :
  calls (trace (snd (run (create_server_from_json (Sample.world "" Sample.quiet) Sample.guild
                            (JObject [("roles", JArray [JString "Admin"; JString "Member"]);
                                      ("categories",
                                       JArray [JObject [("name", JString "Main")]])]))
                       (mkState Sample.sessions [])))) =
  [GuildEdit (JString "Old"); FetchChannels;
   ChannelDelete Sample.general; ChannelDelete Sample.lounge;
   RoleDelete Sample.mods; UserSend critical_notice].
Proof. reflexivity. Qed.

Lemma channel_creation_is_independent_witness :
  exists evs,
    run (for_each Sample2.channel_entries_three
           (create_channel_entry
              (Sample.world "" (Sample.failing Sample2.is_create_text Sample2.server_error))
              5))
      (mkState Sample.sessions []) = (Ok tt, mkState Sample.sessions ([] ++ evs)) /\
    calls evs = omap (channel_call 5) Sample2.channel_entries_three.
Proof.
  apply (channel_creation_is_independent
           (Sample.world "" (Sample.failing Sample2.is_create_text Sample2.server_error))
           5 Sample2.channel_entries_three Sample.sessions []).
  repeat constructor.
Defined.

(** In that run the text channel is refused, the entry of kind [forum]
    asks for nothing, and the voice channel is requested all the same. *)
Example channel_creation_run :
  trace (snd (run (for_each Sample2.channel_entries_three
                     (create_channel_entry
                        (Sample.world "" (Sample.failing Sample2.is_create_text
                                             Sample2.server_error)) 5))
                (mkState Sample.sessions []))) =
  [(CreateTextChannel (JString "general") 5, Some Sample2.server_error);
   (CreateVoiceChannel (JString "talk") 5, None)] /\
  omap (channel_call 5) Sample2.channel_entries_three =
  [CreateTextChannel (JString "general") 5; CreateVoiceChannel (JString "talk") 5].
Proof. split; reflexivity. Qed.

(** ** Categories *)

(** A category that cannot be created costs only itself: the one failed
    request is all that is done for it, none of its channels is tried, and
    the entry returns, so the loop goes on with the next category. *)
Theorem failed_category_skips_its_channels
    (env : Env) (kvs : list (string * json)) (name : json) (e : exn)
    (convs : gmap Z Session) (tr : list event) :
  Py.dict_get "name" kvs = Some name ->
  Py.truthy name = true ->
  oracle env tr (CreateCategory name) = Some e ->
  run (create_category_entry env (JObject kvs)) (mkState convs tr) =
  (Ok tt, mkState convs (tr ++ [(CreateCategory name, Some e)])).
Proof.
  intros Hn Ht Ho. unfold run, create_category_entry, bind at 1, lift.
  cbn [Py.get]. rewrite Hn, Ht. cbn [negb].
  unfold try_except, bind, create_category, bind. rewrite perform_eq, Ho.
  reflexivity.
Qed.

Lemma failed_category_skips_its_channels_witness :
  run (create_category_entry
         (Sample.world "" (Sample.failing Sample2.is_create_category Sample.missing_permissions))
         (JObject Sample2.category_with_bad_channel)) (mkState Sample.sessions []) =
  (Ok tt,
   mkState Sample.sessions
     ([] ++ [(CreateCategory (JString "Main"), Some Sample.missing_permissions)])).
Proof.
  apply (failed_category_skips_its_channels
           (Sample.world "" (Sample.failing Sample2.is_create_category
                                Sample.missing_permissions))
           Sample2.category_with_bad_channel (JString "Main") Sample.missing_permissions
           Sample.sessions []); reflexivity.
Defined.

(** A channel entry that cannot be dispatched (it is no object, or its
    kind is no string, [null] for one) ends its category, not the
    procedure: the channels listed before it are requested under the new
    category, those after it are not, and the entry returns. *)
Theorem undispatchable_channel_ends_category
    (env : Env) (kvs : list (string * json)) (name : json)
    (done rest : list json) (bad : json)
    (convs : gmap Z Session) (tr : list event) :
  Py.dict_get "name" kvs = Some name ->
  Py.truthy name = true ->
  Py.dict_get "channels" kvs = Some (JArray (done ++ bad :: rest)) ->
  Forall (fun x => dispatchable x = true) done ->
  dispatchable bad = false ->
  oracle env tr (CreateCategory name) = None ->
  exists evs,
    run (create_category_entry env (JObject kvs)) (mkState convs tr) =
      (Ok tt, mkState convs ((tr ++ [(CreateCategory name, None)]) ++ evs)) /\
    calls evs = omap (channel_call (length tr)) done.
Proof.
  intros Hn Ht Hc Hall Hbad Ho. unfold run, create_category_entry, bind at 1, lift.
  cbn [Py.get]. rewrite Hn, Ht. cbn [negb].
  destruct (for_each_stops (create_channel_entry env (length tr))
              (fun x => match channel_call (length tr) x with Some c => [c] | None => [] end)
              (fun x => dispatchable x = true) done rest bad attribute_error convs
              (tr ++ [(CreateCategory name, None)])) as (evs & E & C).
  - intros x tr' Hx. now apply create_channel_entry_calls.
  - intros st. now apply create_channel_entry_bad.
  - exact Hall.
  - exists evs. split; [|rewrite C; apply concat_singletons].
    unfold try_except, bind at 1, create_category, bind at 1.
    rewrite perform_eq, Ho. cbn [outcome ret trace].
    unfold bind at 1, lift, present_and_truthy. cbn [Py.contains Py.getitem].
    rewrite Hc. rewrite bool_decide_eq_true_2 by eauto.
    assert (Hne : Py.truthy (JArray (done ++ bad :: rest)) = true)
      by (now destruct done).
    rewrite Hne. unfold bind. cbn [Py.iter]. now rewrite E.
Qed.

Lemma undispatchable_channel_ends_category_witness :
  exists evs,
    run (create_category_entry (Sample.world "" Sample.quiet)
           (JObject Sample2.category_with_bad_channel)) (mkState Sample.sessions []) =
      (Ok tt, mkState Sample.sessions (([] ++ [(CreateCategory (JString "Main"), None)]) ++ evs)) /\
    calls evs = omap (channel_call (length (@nil event))) Sample2.channel_entries_done.
Proof.
  apply (undispatchable_channel_ends_category (Sample.world "" Sample.quiet)
           Sample2.category_with_bad_channel (JString "Main")
           Sample2.channel_entries_done Sample2.channel_entries_rest
           Sample2.channel_entry_bad Sample.sessions []);
    try reflexivity.
  repeat constructor.
Defined.

(** Whatever the categories hold and whatever the outside world does, the
    category loop returns as long as its entries are objects: no failure of
    a category or of a channel gets out of it. *)
Theorem category_loop_never_raises
    (env : Env) (items : list json) (st : State) :
  Forall (fun x => is_object x = true) items ->
  fst (run (for_each items (create_category_entry env)) st) = Ok tt.
Proof.
  intros Hall. unfold run. revert st.
  induction Hall as [|x xs Hx Hxs IH]; intros st; [reflexivity|].
  cbn [for_each]. unfold bind at 1.
  assert (H1 : fst (create_category_entry env x st) = Ok tt).
  { destruct x as [| | | | | |kvs]; try discriminate.
    unfold create_category_entry, bind at 1, lift. cbn [Py.get].
    destruct (Py.dict_get "name" kvs) as [n|];
      (destruct (negb (Py.truthy _)); [reflexivity|]);
      unfold try_except;
      match goal with
      | |- context [bind ?m ?k st] => destruct (bind m k st) as [[[]|e] st1]
      end; reflexivity. }
  destruct (create_category_entry env x st) as [[[]|e] st1]; [apply IH | discriminate].
Qed.

Lemma category_loop_never_raises_witness :
  fst (run (for_each [JObject Sample2.category_with_bad_channel]
              (create_category_entry (Sample.world "" Sample2.all_down)))
         (mkState Sample.sessions [])) = Ok tt.
Proof.
  apply (category_loop_never_raises (Sample.world "" Sample2.all_down)
           [JObject Sample2.category_with_bad_channel] (mkState Sample.sessions [])).
  repeat constructor.
Defined.

(** ** A plan applied when every call returns *)

Section Encoded.

Lemma role_name_get (n : string) : Py.get (encode_role n) "name" JNull = Ok (JString n).
Proof. reflexivity. Qed.

Lemma channel_name_get (c : ChannelSpec) :
  Py.get (encode_channel c) "name" JNull = Ok (JString (spec_name c)).
Proof. now destruct c as [n [k|]]. Qed.

Lemma channel_kind_get (c : ChannelSpec) :
  Py.get (encode_channel c) "type" (JString "text") =
  Ok (JString (match spec_kind c with Some k => k | None => "text" end)).
Proof. now destruct c as [n [k|]]. Qed.

Lemma category_name_get (c : CategorySpec) :
  Py.get (encode_category c) "name" JNull = Ok (JString (category_name c)).
Proof. reflexivity. Qed.

Lemma category_channels_present (c : CategorySpec) :
  present_and_truthy "channels" (encode_category c) = Ok (nonempty (category_channels c)).
Proof. destruct c as [n [|x xs]]; reflexivity. Qed.

Lemma category_channels_getitem (c : CategorySpec) :
  Py.getitem (encode_category c) "channels" =
  Ok (JArray (map encode_channel (category_channels c))).
Proof. reflexivity. Qed.

Lemma plan_name_get (p : Plan) (d : string) :
  Py.get (encode_plan p) "server_name" (JString d) = Ok (JString (default d (plan_name p))).
Proof. now destruct p as [[n|] rs cs]. Qed.

Lemma plan_roles_present (p : Plan) :
  present_and_truthy "roles" (encode_plan p) = Ok (nonempty (plan_roles p)).
Proof. destruct p as [[n|] [|r rs] cs]; reflexivity. Qed.

Lemma plan_roles_getitem (p : Plan) :
  Py.getitem (encode_plan p) "roles" = Ok (JArray (map encode_role (plan_roles p))).
Proof. now destruct p as [[n|] rs cs]. Qed.

Lemma plan_categories_present (p : Plan) :
  present_and_truthy "categories" (encode_plan p) = Ok (nonempty (plan_categories p)).
Proof. destruct p as [[n|] rs [|c cs]]; reflexivity. Qed.

Lemma plan_categories_getitem (p : Plan) :
  Py.getitem (encode_plan p) "categories" =
  Ok (JArray (map encode_category (plan_categories p))).
Proof. now destruct p as [[n|] rs cs]. Qed.

Lemma for_each_map {A B} (g : A -> B) (body : B -> M unit) (xs : list A) (st : State) :
  for_each (map g xs) body st = for_each xs (fun x => body (g x)) st.
Proof.
  revert st. induction xs as [|x xs IH]; intros st; [reflexivity|].
  cbn [map for_each]. unfold bind. destruct (body (g x) st) as [[[]|e] st']; [apply IH | reflexivity].
Qed.

End Encoded.

Section Quiet.
Variable env : Env.
Hypothesis quiet : forall tr c, oracle env tr c = None.

Lemma perform_quiet (c : call) (convs : gmap Z Session) (tr : list event) :
  perform env c (mkState convs tr) = (Ok tt, mkState convs (tr ++ returned [c])).
Proof. now rewrite perform_eq, quiet. Qed.

Lemma returned_app (a b : list call) : returned (a ++ b) = returned a ++ returned b.
Proof. apply map_app. Qed.

Lemma length_returned (cs : list call) : length (returned cs) = length cs.
Proof. apply length_map. Qed.

Lemma concat_wrapped {A B} (g : A -> B) (xs : list A) :
  concat (map (fun x => [g x]) xs) = map g xs.
Proof. induction xs as [|x xs IH]; [reflexivity|]. cbn [map concat]. now rewrite IH. Qed.

Lemma nothing_returned (convs : gmap Z Session) (tr : list event) :
  (Ok tt, mkState convs tr) = (Ok tt, mkState convs (tr ++ returned [])).
Proof. unfold returned. cbn [map]. now rewrite app_nil_r. Qed.

Lemma for_each_quiet {A} (body : A -> M unit) (f : A -> list call)
    (xs : list A) (convs : gmap Z Session) (tr : list event) :
  (forall x tr', body x (mkState convs tr') = (Ok tt, mkState convs (tr' ++ returned (f x)))) ->
  for_each xs body (mkState convs tr) =
  (Ok tt, mkState convs (tr ++ returned (concat (map f xs)))).
Proof.
  intros Hbody. revert tr. induction xs as [|x xs IH]; intros tr; cbn [for_each map concat].
  - apply nothing_returned.
  - unfold bind. now rewrite Hbody, IH, returned_app, app_assoc.
Qed.

Lemma wipe_role_quiet (r : Role) (convs : gmap Z Session) (tr : list event) :
  wipe_role env r (mkState convs tr) =
  (Ok tt, mkState convs (tr ++ returned (if deletable r then [RoleDelete r] else []))).
Proof.
  unfold wipe_role, deletable.
  destruct (role_is_default r || role_is_integration r); cbn [negb].
  - apply nothing_returned.
  - unfold try_except. now rewrite perform_quiet.
Qed.

Lemma create_role_quiet (n : string) (convs : gmap Z Session) (tr : list event) :
  create_role_entry env (encode_role n) (mkState convs tr) =
  (Ok tt, mkState convs (tr ++ returned (if named n then [CreateRole (JString n)] else []))).
Proof.
  unfold create_role_entry, bind, lift. rewrite role_name_get.
  change (Py.truthy (JString n) && negb (Py.eq_str (JString n) "@everyone")) with (named n).
  destruct (named n); [|apply nothing_returned].
  unfold try_except. now rewrite perform_quiet.
Qed.

Lemma create_channel_quiet (cat : nat) (c : ChannelSpec)
    (convs : gmap Z Session) (tr : list event) :
  create_channel_entry env cat (encode_channel c) (mkState convs tr) =
  (Ok tt,
   mkState convs
     (tr ++ returned (match channel_spec_call cat c with Some x => [x] | None => [] end))).
Proof.
  unfold create_channel_entry, bind, lift, channel_spec_call.
  rewrite channel_name_get, channel_kind_get. cbn [Py.lower Py.truthy Py.eq_str].
  destruct (String.eqb (spec_name c) ""); cbn [negb]; [apply nothing_returned|].
  unfold try_except.
  destruct (spec_kind c) as [k|].
  - destruct (String.eqb (Str.lower k) "text"); cbv beta iota;
      [now rewrite perform_quiet|].
    destruct (String.eqb (Str.lower k) "voice"); cbv beta iota;
      [now rewrite perform_quiet|].
    apply nothing_returned.
  - change (String.eqb (Str.lower "text") "text") with true. cbv beta iota.
    now rewrite perform_quiet.
Qed.

Lemma create_category_quiet (c : CategorySpec) (convs : gmap Z Session) (tr : list event) :
  create_category_entry env (encode_category c) (mkState convs tr) =
  (Ok tt, mkState convs (tr ++ returned (category_spec_calls (length tr) c))).
Proof.
  unfold create_category_entry, bind at 1, lift, category_spec_calls.
  rewrite category_name_get. cbn [Py.truthy].
  destruct (String.eqb (category_name c) ""); cbn [negb]; [apply nothing_returned|].
  unfold try_except, bind at 1, create_category, bind at 1.
  rewrite perform_quiet. cbn [ret trace].
  unfold bind at 1, lift. rewrite category_channels_present.
  destruct (category_channels c) as [|ch chans] eqn:Ec; cbn [nonempty].
  - reflexivity.
  - unfold bind at 1, lift. rewrite category_channels_getitem, Ec.
    unfold bind at 1. cbn [Py.iter]. rewrite for_each_map.
    rewrite (for_each_quiet _
               (fun x => match channel_spec_call (length tr) x with
                         | Some y => [y] | None => [] end)
               _ _ _ (fun x tr' => create_channel_quiet (length tr) x convs tr')).
    rewrite concat_singletons, <- app_assoc. reflexivity.
Qed.

Lemma categories_quiet (cs : list CategorySpec) (convs : gmap Z Session) (tr : list event) :
  for_each (map encode_category cs) (create_category_entry env) (mkState convs tr) =
  (Ok tt, mkState convs (tr ++ returned (categories_calls (length tr) cs))).
Proof.
  revert tr. induction cs as [|c cs IH]; intros tr; cbn [map for_each categories_calls].
  - apply nothing_returned.
  - unfold bind. rewrite create_category_quiet, IH.
    rewrite length_app, length_returned.
    now rewrite returned_app, app_assoc.
Qed.

Lemma reconfigure_quiet (guild : Guild) (p : Plan) (convs : gmap Z Session) (tr : list event) :
  reconfigure env guild (encode_plan p) (mkState convs tr) =
  (Ok tt, mkState convs (tr ++ returned (plan_calls guild p (length tr)))).
Proof.
  unfold reconfigure. unfold bind at 1, lift. rewrite plan_name_get.
  unfold bind at 1. rewrite perform_quiet.
  unfold bind at 1. unfold bind at 1. unfold fetch_channels, bind at 1.
  rewrite perform_quiet. cbn [ret].
  rewrite (for_each_quiet _ (fun c => [ChannelDelete c]) _ _ _
             (fun c tr' => perform_quiet (ChannelDelete c) convs tr')).
  unfold bind at 1.
  rewrite (for_each_quiet _ (fun r => if deletable r then [RoleDelete r] else []) _ _ _
             (fun r tr' => wipe_role_quiet r convs tr')).
  rewrite concat_filtered.
  set (tr3 := ((((tr ++ _) ++ _) ++ _) ++ _)).
  assert (Hroles :
    bind (lift (present_and_truthy "roles" (encode_plan p)))
      (fun has_roles : bool =>
         if has_roles then
           bind (lift (Py.getitem (encode_plan p) "roles"))
             (fun roles => bind (lift (Py.iter roles))
                             (fun items => for_each items (create_role_entry env)))
         else ret tt) (mkState convs tr3) =
    (Ok tt, mkState convs
              (tr3 ++ returned (map (fun n => CreateRole (JString n))
                                  (List.filter named (plan_roles p)))))).
  { unfold bind at 1, lift. rewrite plan_roles_present.
    destruct (plan_roles p) as [|r rs] eqn:Er; cbn [nonempty]; [apply nothing_returned|].
    unfold bind at 1. rewrite plan_roles_getitem, Er. unfold bind at 1. cbn [Py.iter].
    rewrite for_each_map.
    rewrite (for_each_quiet _ (fun n => if named n then [CreateRole (JString n)] else []) _ _ _
               (fun n tr' => create_role_quiet n convs tr')).
    now rewrite concat_filtered. }
  unfold lift in Hroles. unfold bind at 1. rewrite Hroles.
  set (tr4 := tr3 ++ _).
  assert (Hcats :
    bind (lift (present_and_truthy "categories" (encode_plan p)))
      (fun has_categories : bool =>
         if has_categories then
           bind (lift (Py.getitem (encode_plan p) "categories"))
             (fun categories => bind (lift (Py.iter categories))
                                  (fun items => for_each items (create_category_entry env)))
         else ret tt) (mkState convs tr4) =
    (Ok tt, mkState convs
              (tr4 ++ returned (categories_calls (length tr4) (plan_categories p))))).
  { unfold bind at 1, lift. rewrite plan_categories_present.
    destruct (plan_categories p) as [|c cs] eqn:Ec; cbn [nonempty]; [apply nothing_returned|].
    unfold bind at 1. rewrite plan_categories_getitem, Ec. unfold bind at 1. cbn [Py.iter].
    apply categories_quiet. }
  unfold lift in Hcats. unfold bind at 1. rewrite Hcats. rewrite perform_quiet.
  f_equal. f_equal. unfold plan_calls, plan_calls_before.
  assert (Ht4 : tr4 = tr ++ returned (plan_calls_before guild p)).
  { unfold tr4, tr3, plan_calls_before.
    rewrite !returned_app, <- !app_assoc.
    rewrite (concat_wrapped ChannelDelete).
    reflexivity. }
  rewrite Ht4 at 2. rewrite length_app, length_returned.
  rewrite Ht4. unfold plan_calls_before. now rewrite !returned_app, <- !app_assoc.
Qed.

End Quiet.

(** The plan Scenario A speaks of, for any plan in the wire format and any
    guild: when every call returns, the procedure renames the guild,
    deletes every channel, deletes every role that is neither the default
    role nor managed, makes a role for every non-empty name other than
    [@everyone], makes every category with a non-empty name and under it
    the text and voice channels its entries call for, and tells the user
    of the success: these calls, in this order, and no other. *)
Theorem plan_applied_when_calls_return
    (env : Env) (guild : Guild) (p : Plan) (convs : gmap Z Session) (tr : list event) :
  (forall tr' c, oracle env tr' c = None) ->
  run (create_server_from_json env guild (encode_plan p)) (mkState convs tr) =
  (Ok tt, mkState convs (tr ++ returned (plan_calls guild p (length tr)))).
Proof.
  intros quiet. unfold run, create_server_from_json, try_except.
  now rewrite (reconfigure_quiet env quiet guild p convs tr).
Qed.

Lemma plan_applied_when_calls_return_witness :
  run (create_server_from_json (Sample.world "" Sample.quiet) Sample.guild
         (encode_plan Sample3.nova)) (mkState Sample.sessions []) =
  (Ok tt,
   mkState Sample.sessions
     ([] ++ returned (plan_calls Sample.guild Sample3.nova (length (@nil event))))).
Proof.
  apply (plan_applied_when_calls_return (Sample.world "" Sample.quiet) Sample.guild
           Sample3.nova Sample.sessions []).
  reflexivity.
Defined.

(** Scenario A, run. *)
Example scenario_a :
  plan_calls Sample.guild Sample3.nova 0 =
  [GuildEdit (JString "Nova"); FetchChannels;
   ChannelDelete Sample.general; ChannelDelete Sample.lounge;
   RoleDelete Sample.mods;
   CreateRole (JString "Admin"); CreateRole (JString "Member");
   CreateCategory (JString "Main"); CreateTextChannel (JString "general") 7;
   CreateCategory (JString "Voice Chats"); CreateVoiceChannel (JString "Lobby") 9;
   UserSend (success_message Sample.guild)].
Proof. reflexivity. Qed.

(** ** The text that is parsed *)

Section Parsed.
Variable env : Env.

Lemma append_prefix_inv (x y a c : string) :
  x +:+ y = a +:+ c -> (String.length x <= String.length a)%nat ->
  exists a', a = x +:+ a'.
Proof.
  revert a. induction x as [|h x IH]; intros a E Hlen; [now exists a|].
  destruct a as [|h' a]; cbn [String.length] in Hlen; [lia|].
  rewrite !append_cons in E. injection E as <- E.
  destruct (IH a E) as [a' ->]; [lia|]. now exists a'.
Qed.

(** The opening delimiter carries the marker. *)
Lemma marker_of_opening (reply pre rest : string) :
  Str.cut open_fence reply = Some (pre, rest) ->
  Str.contains fence_marker reply = true.
Proof.
  intros E. apply cut_parts in E. subst reply. apply contains_later.
  change open_fence with (fence_marker +:+ nl). rewrite append_assoc.
  apply contains_here.
Qed.

(** A reply of the shape [prelude ```json\n payload \n``` postlude]: the cut
    at the first opening delimiter, and what the two further cuts leave. *)
Lemma shape_cut (prelude payload postlude : string) :
  Str.contains open_fence (prelude +:+ fence_marker) = false ->
  Str.cut open_fence (prelude +:+ open_fence +:+ payload +:+ close_fence +:+ postlude) =
  Some (prelude, payload +:+ close_fence +:+ postlude).
Proof.
  intros H1. change open_fence with (fence_marker +:+ nl) in *. unfold nl at 1 2.
  exact (cut_first fence_marker _ prelude _ H1).
Qed.

Lemma shape_payload (payload postlude : string) :
  opens_from (String.length (payload +:+ close_fence))
    (payload +:+ close_fence +:+ postlude) = true ->
  Str.contains close_fence (payload +:+ nl +:+ "``") = false ->
  before close_fence (before open_fence (payload +:+ close_fence +:+ postlude)) = payload.
Proof.
  intros H2 H3.
  assert (Hcut : forall r, before close_fence (payload +:+ close_fence +:+ r) = payload).
  { intros r. unfold before. change close_fence with ((nl +:+ "``") +:+ "`").
    now rewrite (cut_first (nl +:+ "``") "`" payload r H3). }
  unfold opens_from in H2. unfold before at 2.
  destruct (Str.cut open_fence (payload +:+ close_fence +:+ postlude)) as [[a b]|] eqn:E;
    [|apply Hcut].
  apply Nat.leb_le in H2. apply cut_parts in E.
  rewrite <- append_assoc in E.
  destruct (append_prefix_inv _ _ _ _ E H2) as [a' ->].
  rewrite append_assoc. apply Hcut.
Qed.

(** A reply with an opening delimiter, the guild in reach: what
    [on_message] goes on to do once the reply is in and the user has been
    told to wait. *)
Lemma on_message_parses (message : Message) (s : Session) (guild : Guild)
    (convs : gmap Z Session) (tr : list event) (pre rest : string) :
  let uid := author_id message in
  let history := messages s ++ [mkTurn user (message_content message)] in
  let reply := completion env history in
  let tr1 := (tr ++ [(Typing, None)]) ++ [(ChatCompletion history, None)] in
  let tr2 := tr1 ++ [(ChannelSend (rebuilding_notice guild), None)] in
  author_is_bot message = false ->
  in_dm message = true ->
  convs !! uid = Some s ->
  oracle env tr Typing = None ->
  oracle env (tr ++ [(Typing, None)]) (ChatCompletion history) = None ->
  get_guild env (guild_id s) = Some guild ->
  oracle env tr1 (ChannelSend (rebuilding_notice guild)) = None ->
  Str.cut open_fence reply = Some (pre, rest) ->
  run (on_message env message) (mkState convs tr) =
  try_except
    (decode_and_apply env guild (before close_fence (before open_fence rest)) ;;;
     del_session uid)
    (fun _ => Some (apologize env uid))
    (mkState (<[uid := mkSession (history ++ [mkTurn assistant reply]) (guild_id s)]> convs)
       tr2).
Proof.
  intros uid history reply tr1 tr2 Hbot Hdm Hs Hty Hchat Hg Hreb Hcut.
  unfold run. rewrite (on_message_open env message s convs tr Hbot Hdm Hs Hty).
  fold uid. fold history.
  set (s1 := mkSession history (guild_id s)).
  assert (H1 : <[uid := s1]> convs !! uid = Some s1) by apply lookup_insert_eq.
  unfold try_except.
  rewrite (exchange_terminal env uid s1 _ _ H1 Hchat (marker_of_opening _ _ _ Hcut)).
  cbn [messages guild_id s1]. fold reply. fold tr1. rewrite insert_insert_eq.
  unfold handle_json_and_create_server. rewrite Hg.
  unfold bind at 1. unfold bind at 1. rewrite perform_eq, Hreb. cbn [outcome]. fold tr2.
  rewrite extract_json_string_cut, Hcut. reflexivity.
Qed.

End Parsed.

(** C5, as the code has it.  A reply without the marker is relayed, never
    parsed.  When the reply holds an opening delimiter (the marker
    followed by a newline), the text that is decoded, and whose value is
    applied, is what follows the first opening delimiter, cut at the next
    opening delimiter if there is one and then at the first closing fence
    if there is one.  For a reply [prelude ```json\n payload \n``` postlude]
    in which no opening delimiter starts before the one that ends the
    prelude, none starts again before the end of the closing fence, and no
    closing fence starts inside the payload, that text is exactly the
    payload. *)
Theorem extraction_between_fences
    (env : Env) (message : Message) (s : Session)
    (convs : gmap Z Session) (tr : list event) :
  let uid := author_id message in
  let history := messages s ++ [mkTurn user (message_content message)] in
  let reply := completion env history in
  let tr1 := (tr ++ [(Typing, None)]) ++ [(ChatCompletion history, None)] in
  let told guild := tr1 ++ [(ChannelSend (rebuilding_notice guild), None)] in
  let convs2 :=
    <[uid := mkSession (history ++ [mkTurn assistant reply]) (guild_id s)]> convs in
  let parses guild text :=
    run (on_message env message) (mkState convs tr) =
    try_except (decode_and_apply env guild text ;;; del_session uid)
      (fun _ => Some (apologize env uid)) (mkState convs2 (told guild)) in
  author_is_bot message = false ->
  in_dm message = true ->
  convs !! uid = Some s ->
  oracle env tr Typing = None ->
  oracle env (tr ++ [(Typing, None)]) (ChatCompletion history) = None ->
  (Str.contains fence_marker reply = false ->
   oracle env tr1 (ChannelSend reply) = None ->
   run (on_message env message) (mkState convs tr) =
   (Ok tt, mkState convs2 (tr1 ++ [(ChannelSend reply, None)])))
  /\
  (forall (guild : Guild) (pre rest : string),
     get_guild env (guild_id s) = Some guild ->
     oracle env tr1 (ChannelSend (rebuilding_notice guild)) = None ->
     Str.cut open_fence reply = Some (pre, rest) ->
     Str.contains fence_marker reply = true /\
     parses guild (before close_fence (before open_fence rest)))
  /\
  (forall (guild : Guild) (prelude payload postlude : string),
     get_guild env (guild_id s) = Some guild ->
     oracle env tr1 (ChannelSend (rebuilding_notice guild)) = None ->
     reply = prelude +:+ open_fence +:+ payload +:+ close_fence +:+ postlude ->
     Str.contains open_fence (prelude +:+ fence_marker) = false ->
     opens_from (String.length (payload +:+ close_fence))
       (payload +:+ close_fence +:+ postlude) = true ->
     Str.contains close_fence (payload +:+ nl +:+ "``") = false ->
     Str.contains fence_marker reply = true /\
     between_fences reply = Some payload /\
     parses guild payload).
Proof.
  intros uid history reply tr1 told convs2 parses Hbot Hdm Hs Hty Hchat.
  split; [|split].
  - intros Hmark Hsend.
    now apply (reply_without_marker_relayed env message s convs tr).
  - intros guild pre rest Hg Hreb Hcut. split.
    + exact (marker_of_opening _ _ _ Hcut).
    + now apply (on_message_parses env message s guild convs tr pre rest).
  - intros guild prelude payload postlude Hg Hreb Hshape H1 H2 H3.
    assert (Hcut := shape_cut prelude payload postlude H1). rewrite <- Hshape in Hcut.
    split; [exact (marker_of_opening _ _ _ Hcut)|]. split.
    + unfold between_fences. rewrite Hcut.
      change close_fence with ((nl +:+ "``") +:+ "`").
      now rewrite (cut_first (nl +:+ "``") "`" payload postlude H3).
    + unfold parses. rewrite <- (shape_payload payload postlude H2 H3).
      now apply (on_message_parses env message s guild convs tr prelude).
Qed.

Lemma extraction_between_fences_witness :
  let env := Sample.world Sample3.two_blocks Sample.quiet in
  Str.contains fence_marker Sample3.two_blocks = true /\
  between_fences Sample3.two_blocks = Some Sample3.nova_text /\
  run (on_message env Sample.message) (mkState Sample.sessions []) =
  try_except (decode_and_apply env Sample.guild Sample3.nova_text ;;; del_session 42)
    (fun _ => Some (apologize env 42))
    (mkState
       (<[42%Z := mkSession (Sample.history ++ [mkTurn assistant Sample3.two_blocks]) 7]>
          Sample.sessions)
       ((([] ++ [(Typing, None)]) ++ [(ChatCompletion Sample.history, None)])
          ++ [(ChannelSend (rebuilding_notice Sample.guild), None)])).
Proof.
  intros env.
  destruct (extraction_between_fences env Sample.message Sample.session Sample.sessions [])
    as (_ & _ & Hshape); try reflexivity.
  apply (Hshape Sample.guild Sample3.prelude Sample3.nova_text Sample3.postlude);
    reflexivity.
Defined.

(** That reply, run: the first block is decoded and applied, the second
    block in what follows is of no account. *)
Example two_blocks_run :
  let r := run (on_message (Sample.world Sample3.two_blocks Sample.quiet) Sample.message)
             (mkState Sample.sessions []) in
  Json.loads Sample3.nova_text = Ok Sample.nova /\
  calls (trace (snd r)) =
    [Typing; ChatCompletion Sample.history; ChannelSend (rebuilding_notice Sample.guild);
     GuildEdit (JString "Nova"); FetchChannels;
     ChannelDelete Sample.general; ChannelDelete Sample.lounge; RoleDelete Sample.mods;
     UserSend (success_message Sample.guild)].
Proof. split; reflexivity. Qed.
